(** * The hero catalogue router (src/routers/hero.js) over a model of its store

    The router is glue over a document store reached through an object-document
    mapper: every handler builds a query (filter, sort, skip, limit), executes
    it, and hands the callback's arguments to [res.json].  The development
    embeds the six handlers as functions of the store's contents and of what
    the store reports to the callback, and settles the properties stated for
    them.

    Conventions of the embedding:
    - a collection is the list of its documents in natural (insertion) order;
    - JavaScript numbers that the handlers see are integers, modelled as [Z];
    - strings are byte strings compared byte-wise, the store's default
      collation;
    - the store promises no order among documents whose sort keys are
      equal, nor the same order from one query to the next: that order is
      a parameter of the embedding. *)

From Stdlib Require Import ZArith String Ascii.
From stdpp Require Import base decidable option numbers list sorting strings.

Local Open Scope string_scope.
Local Open Scope Z_scope.
Local Open Scope list_scope.

(** ** Identifiers *)

(** An [ObjectId] is kept in its canonical form, 24 lower-case hexadecimal
    digits. *)
Definition ObjectId := string.

Definition is_hex_digit (c : ascii) : bool :=
  let n := N_of_ascii c in
  ((48 <=? n) && (n <=? 57) || (65 <=? n) && (n <=? 70) || (97 <=? n) && (n <=? 102))%N.

Definition lower_ascii (c : ascii) : ascii :=
  let n := N_of_ascii c in
  if ((65 <=? n) && (n <=? 90))%N then ascii_of_N (n + 32) else c.

Fixpoint toLowerCase (s : string) : string :=
  match s with
  | EmptyString => EmptyString
  | String c s' => String (lower_ascii c) (toLowerCase s')
  end.

Fixpoint string_forallb (p : ascii → bool) (s : string) : bool :=
  match s with
  | EmptyString => true
  | String c s' => p c && string_forallb p s'
  end.

Definition hex_digit (n : N) : ascii :=
  if (n <? 10)%N then ascii_of_N (48 + n) else ascii_of_N (87 + n).

Fixpoint hex_of_bytes (s : string) : string :=
  match s with
  | EmptyString => EmptyString
  | String c s' =>
      let n := N_of_ascii c in
      String (hex_digit (n / 16)) (String (hex_digit (n mod 16)) (hex_of_bytes s'))
  end.

(** The cast the mapper applies to the argument of [findById]: a string of 24
    hexadecimal digits, or a string of 12 bytes, is an identifier; anything
    else is rejected. *)
Definition castObjectId (s : string) : option ObjectId :=
  if (String.length s =? 24)%nat && string_forallb is_hex_digit s
  then Some (toLowerCase s)
  else if (String.length s =? 12)%nat
            && string_forallb (λ c, (N_of_ascii c <? 128)%N) s
  then Some (hex_of_bytes s)
  else None.

(** ** Documents *)

(** The values found at the paths of a document. *)
Inductive value :=
  | VNum (n : Z)
  | VStr (s : string)
  | VStrs (l : list string)
  | VId (o : ObjectId)
  | VDate (t : Z).

Global Instance value_eq_dec : EqDecision value.
Proof. solve_decision. Defined.

(** src/models/hero.js: the hero schema, with the [_id] the store assigns and
    the two fields that the option [timestamps: true] adds. *)
Record Powerstats := {
  intelligence : Z;
  strength : Z;
  speed : Z;
  durability : Z;
  power : Z;
  combat : Z
}.

Record Appearance := {
  gender : string;
  race : string;
  height : list string;
  weight : list string;
  eyeColor : string;
  hairColor : string
}.

Record Biography := {
  fullName : string;
  alterEgos : string;
  aliases : list string;
  placeOfBirth : string;
  firstAppearance : string;
  publisher : string;
  alignment : string
}.

Record Work := { occupation : string; base : string }.

Record Connections := { groupAffiliation : string; relatives : string }.

Record Images := { xs : string; sm : string; md : string; lg : string }.

Record Hero := {
  _id : ObjectId;
  original_id : Z;
  name : string;
  slug : string;
  powerstats : Powerstats;
  appearance : Appearance;
  biography : Biography;
  work : Work;
  connections : Connections;
  images : Images;
  createdAt : Z;
  updatedAt : Z
}.

(** Modelled from the spec: the comment schema (models/comment.js is not among
    the sources).  A comment holds a reference to the owning hero's
    identifier, a free-text body, and the creation and update timestamps the
    store maintains. *)
Record Comment := {
  comment_id : ObjectId;
  hero : ObjectId;
  text : string;
  comment_createdAt : Z;
  comment_updatedAt : Z
}.

Global Instance Powerstats_eq_dec : EqDecision Powerstats.
Proof. solve_decision. Defined.
Global Instance Appearance_eq_dec : EqDecision Appearance.
Proof. solve_decision. Defined.
Global Instance Biography_eq_dec : EqDecision Biography.
Proof. solve_decision. Defined.
Global Instance Work_eq_dec : EqDecision Work.
Proof. solve_decision. Defined.
Global Instance Connections_eq_dec : EqDecision Connections.
Proof. solve_decision. Defined.
Global Instance Images_eq_dec : EqDecision Images.
Proof. solve_decision. Defined.
Global Instance Hero_eq_dec : EqDecision Hero.
Proof. solve_decision. Defined.
Global Instance Comment_eq_dec : EqDecision Comment.
Proof. solve_decision. Defined.

(** A model, as the mapper sees it: the paths its schema declares and the
    value a document holds at each path. *)
Class Document (D : Type) := {
  schema_paths : list string;
  fields : D → list (string * value)
}.

Fixpoint assoc (p : string) (l : list (string * value)) : option value :=
  match l with
  | [] => None
  | (k, v) :: l' => if String.eqb p k then Some v else assoc p l'
  end.

(** The value of document [d] at path [p]; [None] when the document has no
    such field. *)
Definition get `{Document D} (p : string) (d : D) : option value :=
  assoc p (fields d).

Definition hero_fields (h : Hero) : list (string * value) :=
  [ ("_id", VId (_id h));
    ("original_id", VNum (original_id h));
    ("name", VStr (name h));
    ("slug", VStr (slug h));
    ("powerstats.intelligence", VNum (intelligence (powerstats h)));
    ("powerstats.strength", VNum (strength (powerstats h)));
    ("powerstats.speed", VNum (speed (powerstats h)));
    ("powerstats.durability", VNum (durability (powerstats h)));
    ("powerstats.power", VNum (power (powerstats h)));
    ("powerstats.combat", VNum (combat (powerstats h)));
    ("appearance.gender", VStr (gender (appearance h)));
    ("appearance.race", VStr (race (appearance h)));
    ("appearance.height", VStrs (height (appearance h)));
    ("appearance.weight", VStrs (weight (appearance h)));
    ("appearance.eyeColor", VStr (eyeColor (appearance h)));
    ("appearance.hairColor", VStr (hairColor (appearance h)));
    ("biography.fullName", VStr (fullName (biography h)));
    ("biography.alterEgos", VStr (alterEgos (biography h)));
    ("biography.aliases", VStrs (aliases (biography h)));
    ("biography.placeOfBirth", VStr (placeOfBirth (biography h)));
    ("biography.firstAppearance", VStr (firstAppearance (biography h)));
    ("biography.publisher", VStr (publisher (biography h)));
    ("biography.alignment", VStr (alignment (biography h)));
    ("work.occupation", VStr (occupation (work h)));
    ("work.base", VStr (base (work h)));
    ("connections.groupAffiliation", VStr (groupAffiliation (connections h)));
    ("connections.relatives", VStr (relatives (connections h)));
    ("images.xs", VStr (xs (images h)));
    ("images.sm", VStr (sm (images h)));
    ("images.md", VStr (md (images h)));
    ("images.lg", VStr (lg (images h)));
    ("createdAt", VDate (createdAt h));
    ("updatedAt", VDate (updatedAt h)) ].

Definition hero_paths : list string :=
  [ "_id"; "original_id"; "name"; "slug";
    "powerstats.intelligence"; "powerstats.strength"; "powerstats.speed";
    "powerstats.durability"; "powerstats.power"; "powerstats.combat";
    "appearance.gender"; "appearance.race"; "appearance.height";
    "appearance.weight"; "appearance.eyeColor"; "appearance.hairColor";
    "biography.fullName"; "biography.alterEgos"; "biography.aliases";
    "biography.placeOfBirth"; "biography.firstAppearance";
    "biography.publisher"; "biography.alignment";
    "work.occupation"; "work.base";
    "connections.groupAffiliation"; "connections.relatives";
    "images.xs"; "images.sm"; "images.md"; "images.lg";
    "createdAt"; "updatedAt" ].

Global Instance Hero_document : Document Hero :=
  {| schema_paths := hero_paths; fields := hero_fields |}.

Definition comment_fields (c : Comment) : list (string * value) :=
  [ ("_id", VId (comment_id c));
    ("hero", VId (hero c));
    ("text", VStr (text c));
    ("createdAt", VDate (comment_createdAt c));
    ("updatedAt", VDate (comment_updatedAt c)) ].

Definition comment_paths : list string :=
  [ "_id"; "hero"; "text"; "createdAt"; "updatedAt" ].

Global Instance Comment_document : Document Comment :=
  {| schema_paths := comment_paths; fields := comment_fields |}.

(** ** The store and what it reports *)

Record Store := { heroes : list Hero; comments : list Comment }.

(** The errors a query hands to its callback. *)
Inductive StoreError :=
  | CastError (path : string) (given : string)
  | ValidationError (path : string)
  | ServerError (msg : string)
  | NetworkError.

(** The two arguments [(err, result)] of an [exec] callback. *)
Inductive callback_args (A : Type) :=
  | CbErr (err : StoreError)
  | CbOk (result : A).
Arguments CbErr {A} err.
Arguments CbOk {A} result.

(** Exceptions raised by the handler's own code. *)
Inductive exn :=
  | ReferenceError (ident : string)
  | TypeError (msg : string).

(** The argument of [res.json]. *)
Inductive json :=
  | JNull
  | JHero (h : Hero)
  | JHeroes (l : list Hero)
  | JComment (c : Comment)
  | JComments (l : list Comment).

(** How a handler ends: it sent a response, it raised, or its callback
    returned without sending anything. *)
Inductive outcome :=
  | Responded (status : Z) (body : json)
  | Threw (e : exn)
  | Returned.

(** [res.json(x)]: the response status is left at its default, 200. *)
Definition res_json (body : json) : outcome := Responded 200 body.

(** ** Queries *)

Inductive direction := Asc | Desc.

Inductive condition :=
  | CondEq (path : string) (v : value)
  | CondGte (path : string) (n : Z).

Definition cond_path (c : condition) : string :=
  match c with CondEq p _ => p | CondGte p _ => p end.

Record Query := {
  conditions : list condition;
  order : list (string * direction);
  skipped : Z;
  limited : option Z
}.

(** [Model.find(conds)] *)
Definition find (conds : list condition) : Query :=
  {| conditions := conds; order := []; skipped := 0; limited := None |}.

(** [.where(path).gte(n)] *)
Definition where_gte (path : string) (n : Z) (q : Query) : Query :=
  {| conditions := conditions q ++ [CondGte path n]; order := order q;
     skipped := skipped q; limited := limited q |}.

(** [.skip(n)] *)
Definition skip (n : Z) (q : Query) : Query :=
  {| conditions := conditions q; order := order q;
     skipped := n; limited := limited q |}.

(** [.limit(n)] *)
Definition limit (n : Z) (q : Query) : Query :=
  {| conditions := conditions q; order := order q;
     skipped := skipped q; limited := Some n |}.

Definition add_order (p : string) (d : direction) (q : Query) : Query :=
  {| conditions := conditions q; order := order q ++ [(p, d)];
     skipped := skipped q; limited := limited q |}.

Definition string_mem (s : string) (l : list string) : bool :=
  existsb (String.eqb s) l.

(** The direction a value of a sort object stands for: the query builder
    reads [String(value || 1).toLowerCase()] and accepts six spellings. *)
Definition sort_value (v : option string) : option direction :=
  let val := toLowerCase
               (match v with
                | None | Some "" => "1"
                | Some s => s
                end) in
  if string_mem val ["1"; "asc"; "ascending"] then Some Asc
  else if string_mem val ["-1"; "desc"; "descending"] then Some Desc
  else None.

Definition show (v : option string) : string :=
  match v with None => "undefined" | Some s => s end.

(** [.sort({path: v})]: raises on a value that is no direction. *)
Definition sort_object (path : string) (v : option string) (q : Query)
  : exn + Query :=
  match sort_value v with
  | Some d => inr (add_order path d q)
  | None => inl (TypeError ("Invalid sort value: { " +:+ path +:+ ": " +:+ show v +:+ " }"))
  end.

Definition sort_field (f : string) : string * direction :=
  match f with
  | String "-" f' => (f', Desc)
  | _ => (f, Asc)
  end.

(** [.sort('field -field ...')]: space-separated paths, a leading minus for
    descending. *)
Definition sort_string (s : string) (q : Query) : Query :=
  foldl (λ q f, let '(p, d) := sort_field f in add_order p d q) q (String.words s).

(** ** Executing a query *)

(** The store's comparison of sort keys: a missing field sorts as null,
    below every value; values of different types compare by type; arrays
    are compared by type only. *)
Definition rank (k : option value) : Z :=
  match k with
  | None => 0
  | Some (VNum _) => 1
  | Some (VStr _) => 2
  | Some (VStrs _) => 3
  | Some (VId _) => 4
  | Some (VDate _) => 5
  end.

Definition key_compare (k1 k2 : option value) : comparison :=
  match k1, k2 with
  | Some (VNum a), Some (VNum b) => Z.compare a b
  | Some (VStr a), Some (VStr b) => String.compare a b
  | Some (VId a), Some (VId b) => String.compare a b
  | Some (VDate a), Some (VDate b) => Z.compare a b
  | _, _ => Z.compare (rank k1) (rank k2)
  end.

Fixpoint doc_compare `{Document D} (ord : list (string * direction)) (a b : D)
  : comparison :=
  match ord with
  | [] => Eq
  | (p, d) :: ord' =>
      let c := match d with
               | Asc => key_compare (get p a) (get p b)
               | Desc => key_compare (get p b) (get p a)
               end in
      match c with
      | Eq => doc_compare ord' a b
      | _ => c
      end
  end.

Definition doc_le `{Document D} (ord : list (string * direction)) (a b : D) : bool :=
  match doc_compare ord a b with Gt => false | _ => true end.

(** A stable insertion sort. *)
Fixpoint insert_by {A} (le : A → A → bool) (x : A) (l : list A) : list A :=
  match l with
  | [] => [x]
  | y :: l' => if le x y then x :: l else y :: insert_by le x l'
  end.

Definition sort_by {A} (le : A → A → bool) (l : list A) : list A :=
  foldr (insert_by le) [] l.

Definition matches `{Document D} (d : D) (c : condition) : bool :=
  match c with
  | CondEq p v => bool_decide (get p d = Some v)
  | CondGte p n =>
      match get p d with
      | Some (VNum x) => (n <=? x)%Z
      | _ => false
      end
  end.

(** Casting the filter against the schema: under [strictQuery], conditions
    on paths the schema does not declare are removed from the filter;
    otherwise they are sent to the store as they are. *)
Definition cast_conditions (strictQuery : bool) (paths : list string)
    (conds : list condition) : list condition :=
  if strictQuery
  then List.filter (λ c, string_mem (cond_path c) paths) conds
  else conds.

Definition take_limit {A} (lim : option Z) (l : list A) : list A :=
  match lim with
  | None => l
  | Some n => take (Z.to_nat n) l
  end.

(** The order in which the store comes upon the matching documents when
    it sorts them for a query.  It settles the order of documents whose
    sort keys are equal; the store promises nothing about it, so it is any
    rearrangement, and the query, its offset included, may bear on it. *)
Record TieOrder := {
  visit : ∀ D : Type, Query → list D → list D;
  visit_Permutation : ∀ D (q : Query) (l : list D), visit D q l ≡ₚ l
}.

(** The store that visits documents in the collection's natural order. *)
Definition natural_order : TieOrder :=
  {| visit := λ D q l, l;
     visit_Permutation := λ D q l, Permutation_refl l |}.

(** What lies behind the query calls and is settled outside this module:
    the mapper's [strictQuery] option and the store's order among equal
    sort keys. *)
Record Backend := { strictQuery : bool; tie_order : TieOrder }.

(** A query that asks for no sort is answered in natural order. *)
Definition arranged {D} (t : TieOrder) (q : Query) (found : list D) : list D :=
  match order q with
  | [] => found
  | _ => visit t D q found
  end.

(** Filter, sort, skip, limit.  The store refuses a negative skip. *)
Definition run `{Document D} (backend : Backend) (docs : list D) (q : Query)
  : callback_args (list D) :=
  let conds := cast_conditions (strictQuery backend) schema_paths (conditions q) in
  let found := List.filter (λ d, forallb (matches d) conds) docs in
  let sorted := sort_by (doc_le (order q)) (arranged (tie_order backend) q found) in
  if (skipped q <? 0)%Z
  then CbErr (ServerError "Skip value must be non-negative")
  else CbOk (take_limit (limited q) (drop (Z.to_nat (skipped q)) sorted)).

(** [query.exec(cb)]: what the callback is called with.  A builder that
    raised never reaches the store; [fault] is the failure, if any, of the
    store itself (connectivity, timeout) during this query. *)
Definition exec `{Document D} (backend : Backend) (fault : option StoreError)
    (docs : list D) (q : exn + Query) : exn + callback_args (list D) :=
  match q with
  | inl e => inl e
  | inr q =>
      inr (match fault with
           | Some err => CbErr err
           | None => run backend docs q
           end)
  end.

(** [Hero.findById(id).exec(cb)]: the identifier is cast first, and a
    failed cast is reported to the callback; the result is the first
    document with that [_id], or null. *)
Definition findById (backend : Backend) (fault : option StoreError)
    (docs : list Hero) (id : string) : callback_args (option Hero) :=
  match castObjectId id with
  | None => CbErr (CastError "_id" id)
  | Some oid =>
      match fault with
      | Some err => CbErr err
      | None =>
          match run backend docs (limit 1 (find [CondEq "_id" (VId oid)])) with
          | CbErr err => CbErr err
          | CbOk l => CbOk (head l)
          end
      end
  end.

(** Modelled from the spec: [comment.save()] of models/comment.js, which is
    not among the sources.  The text is required; the store stamps the
    comment with the current time and appends it to the collection, and
    refuses an [_id] already in use. *)
Definition save (fault : option StoreError) (now : Z) (fresh : ObjectId)
    (coll : list Comment) (hero_ref : ObjectId) (body_text : option string)
  : callback_args (Comment * list Comment) :=
  match body_text with
  | None => CbErr (ValidationError "text")
  | Some t =>
      match fault with
      | Some err => CbErr err
      | None =>
          if bool_decide (fresh ∈ comment_id <$> coll)
          then CbErr (ServerError "E11000 duplicate key")
          else
            let c := {| comment_id := fresh; hero := hero_ref; text := t;
                        comment_createdAt := now; comment_updatedAt := now |} in
            CbOk (c, coll ++ [c])
      end
  end.

(** ** src/routers/hero.js *)

Definition DEFAULT_HEROES_PER_PAGE : Z := 10.
Definition DEFAULT_COMMENTS_PER_PAGE : Z := 3.

(** The names a handler's body can refer to: the constants the module
    declares, the parameters and constants of the handlers and of their
    callbacks, and the names the host provides ([__basedir] is the one
    global of the application that the module reads). *)
Definition module_scope : list string :=
  [ "express"; "isObjectIdOrHexString"; "router"; "Hero"; "Comment";
    "DEFAULT_HEROES_PER_PAGE"; "DEFAULT_COMMENTS_PER_PAGE" ].

Definition handler_locals : list string :=
  [ "req"; "res"; "page"; "id"; "name"; "text"; "err"; "hero"; "comment";
    "saveComment"; "intelligence"; "strength"; "speed"; "durability";
    "power"; "combat" ].

Definition host_globals : list string :=
  [ "require"; "module"; "exports"; "__filename"; "__dirname"; "__basedir";
    "global"; "globalThis"; "process"; "console"; "Buffer";
    "setTimeout"; "setInterval"; "setImmediate"; "clearTimeout";
    "clearInterval"; "clearImmediate"; "queueMicrotask";
    "Object"; "Function"; "Array"; "String"; "Number"; "Boolean"; "Symbol";
    "Math"; "JSON"; "Date"; "RegExp"; "Promise"; "Map"; "Set";
    "Error"; "TypeError"; "RangeError"; "ReferenceError"; "SyntaxError";
    "parseInt"; "parseFloat"; "isNaN"; "isFinite"; "undefined"; "NaN";
    "Infinity" ].

Definition in_scope (x : string) : bool :=
  string_mem x (handler_locals ++ module_scope ++ host_globals).

(** [return handleError(err)]: a call of a free identifier.  Bound to a
    function, it would end the callback with no response of the handler's
    own; unbound, evaluating it raises. *)
Definition handleError (err : StoreError) : outcome :=
  if in_scope "handleError" then Returned
  else Threw (ReferenceError "handleError").

(** [(err, x) => { if (err) return handleError(err); k(x) }], applied to
    what [exec] produced. *)
Definition callback {A} (k : A → outcome) (args : exn + callback_args A)
  : outcome :=
  match args with
  | inl e => Threw e
  | inr (CbErr err) => handleError err
  | inr (CbOk x) => k x
  end.

(** [v || d] for an optional number. *)
Definition or_default (v : option Z) (d : Z) : Z :=
  match v with Some x => x | None => d end.

(** A further builder step on a query whose construction may have raised. *)
Definition and_then (q : exn + Query) (f : Query → Query) : exn + Query :=
  match q with inl e => inl e | inr q => inr (f q) end.
Notation "q '.>' f" := (and_then q f) (at level 50, left associativity).

(** The body of POST /search/heroes/by-min-stats. *)
Record MinStats := {
  body_intelligence : option Z;
  body_strength : option Z;
  body_speed : option Z;
  body_durability : option Z;
  body_power : option Z;
  body_combat : option Z
}.

Section Router.
(** The mapper's option and the store's tie order are settled outside
    this module. *)
Variable backend : Backend.

(** [Hero.find({}).sort({name:'asc'}).skip(..).limit(..).exec] *)
Definition heroes_page (st : Store) (fault : option StoreError) (page : Z) :=
  exec backend fault (heroes st)
    (sort_object "name" (Some "asc") (find [])
       .> skip ((page - 1) * DEFAULT_HEROES_PER_PAGE)
       .> limit DEFAULT_HEROES_PER_PAGE).

(** GET /heroes *)
Definition get_heroes (st : Store) (fault : option StoreError)
    (query_page : option Z) : outcome :=
  let page := or_default query_page 1 in
  callback (λ hero, res_json (JHeroes hero)) (heroes_page st fault page).

(** GET /heroes/:id *)
Definition get_hero (st : Store) (fault : option StoreError) (id : string)
  : outcome :=
  callback (λ hero, res_json (match hero with
                               | Some h => JHero h
                               | None => JNull
                               end))
           (inr (findById backend fault (heroes st) id)).

(** [Hero.find({}).sort({name: name}).skip(..).limit(..).exec] *)
Definition heroes_by_name (st : Store) (fault : option StoreError)
    (name : option string) (page : Z) :=
  exec backend fault (heroes st)
    (sort_object "name" name (find [])
       .> skip ((page - 1) * DEFAULT_HEROES_PER_PAGE)
       .> limit DEFAULT_HEROES_PER_PAGE).

(** POST /search/heroes/by-name *)
Definition search_heroes_by_name (st : Store) (fault : option StoreError)
    (body_query : option string) (query_page : option Z) : outcome :=
  let name := body_query in
  let page := or_default query_page 1 in
  callback (λ hero, res_json (JHeroes hero)) (heroes_by_name st fault name page).

(** [Hero.where('intelligence').gte(..) ... .skip(..).limit(..).exec] *)
Definition heroes_by_min_stats (st : Store) (fault : option StoreError)
    (intelligence strength speed durability power combat page : Z) :=
  exec backend fault (heroes st)
    (inr (find [])
       .> where_gte "intelligence" intelligence
       .> where_gte "strength" strength
       .> where_gte "speed" speed
       .> where_gte "durability" durability
       .> where_gte "power" power
       .> where_gte "combat" combat
       .> skip ((page - 1) * DEFAULT_HEROES_PER_PAGE)
       .> limit DEFAULT_HEROES_PER_PAGE).

(** POST /search/heroes/by-min-stats *)
Definition search_heroes_by_min_stats (st : Store) (fault : option StoreError)
    (body : MinStats) (query_page : option Z) : outcome :=
  let intelligence := or_default (body_intelligence body) 0 in
  let strength := or_default (body_strength body) 0 in
  let speed := or_default (body_speed body) 0 in
  let durability := or_default (body_durability body) 0 in
  let power := or_default (body_power body) 0 in
  let combat := or_default (body_combat body) 0 in
  let page := or_default query_page 1 in
  callback (λ hero, res_json (JHeroes hero))
    (heroes_by_min_stats st fault
       intelligence strength speed durability power combat page).

(** [hero._id] on what [findById] found, which is null when no document
    matched. *)
Definition hero_id (hero : option Hero) : exn + ObjectId :=
  match hero with
  | Some h => inr (_id h)
  | None => inl (TypeError "Cannot read properties of null (reading '_id')")
  end.

(** POST /heroes/:id/comments.  [fault] bears on the lookup of the hero,
    [fault'] on the insertion; [now] and [fresh] are the time and the
    identifier the store gives the new comment.  The result is the
    outcome together with the store after the request. *)
Definition post_comment (st : Store) (fault fault' : option StoreError)
    (now : Z) (fresh : ObjectId) (id : string) (body_text : option string)
  : outcome * Store :=
  let text := body_text in
  match findById backend fault (heroes st) id with
  | CbErr err => (handleError err, st)
  | CbOk hero =>
      match hero_id hero with
      | inl e => (Threw e, st)
      | inr ref =>
          match save fault' now fresh (comments st) ref text with
          | CbOk (saveComment, coll) =>
              (res_json (JComment saveComment),
               {| heroes := heroes st; comments := coll |})
          | CbErr err => (handleError err, st)
          end
      end
  end.

(** [Comment.find({hero: ..}).sort('-timestamps').skip(..).limit(..).exec] *)
Definition comments_page (st : Store) (fault : option StoreError)
    (ref : ObjectId) (page : Z) :=
  exec backend fault (comments st)
    (inr (find [CondEq "hero" (VId ref)])
       .> sort_string "-timestamps"
       .> skip ((page - 1) * DEFAULT_COMMENTS_PER_PAGE)
       .> limit DEFAULT_COMMENTS_PER_PAGE).

(** GET /heroes/:id/comments *)
Definition get_comments (st : Store) (fault fault' : option StoreError)
    (id : string) (query_page : option Z) : outcome :=
  let page := or_default query_page 1 in
  callback (λ hero,
              match hero_id hero with
              | inl e => Threw e
              | inr ref =>
                  callback (λ comment, res_json (JComments comment))
                           (comments_page st fault' ref page)
              end)
           (inr (findById backend fault (heroes st) id)).

End Router.

(** ** The router as a whole *)

Inductive request :=
  | GetHeroes (page : option Z)
  | GetHero (id : string)
  | SearchByName (query : option string) (page : option Z)
  | SearchByMinStats (body : MinStats) (page : option Z)
  | PostComment (id : string) (text : option string)
  | GetComments (id : string) (page : option Z).

(** What a request meets outside the router: the mapper's option and the
    store's tie order, the store failures during its first and second
    query, and the time and identifier the store would give a new
    document. *)
Record Env := {
  backend : Backend;
  fault1 : option StoreError;
  fault2 : option StoreError;
  now : Z;
  fresh : ObjectId
}.

(** The six routes registered on the router. *)
Definition route (env : Env) (st : Store) (r : request) : outcome * Store :=
  match r with
  | GetHeroes page =>
      (get_heroes (backend env) st (fault1 env) page, st)
  | GetHero id =>
      (get_hero (backend env) st (fault1 env) id, st)
  | SearchByName query page =>
      (search_heroes_by_name (backend env) st (fault1 env) query page, st)
  | SearchByMinStats body page =>
      (search_heroes_by_min_stats (backend env) st (fault1 env) body page, st)
  | PostComment id text =>
      post_comment (backend env) st (fault1 env) (fault2 env)
        (now env) (fresh env) id text
  | GetComments id page =>
      (get_comments (backend env) st (fault1 env) (fault2 env) id page, st)
  end.

Definition err_of {A} (args : exn + callback_args A) : option StoreError :=
  match args with
  | inr (CbErr err) => Some err
  | _ => None
  end.

(** The error, if any, that reaches an [if (err)] test (or the [catch]
    around [save]) while the request is handled: the first query's, or
    else, where the handler goes on to a second store operation, that
    one's. *)
Definition reported_error (env : Env) (st : Store) (r : request)
  : option StoreError :=
  let sq := backend env in
  let hero_lookup id := findById sq (fault1 env) (heroes st) id in
  match r with
  | GetHeroes page =>
      err_of (heroes_page sq st (fault1 env) (or_default page 1))
  | GetHero id =>
      err_of (inr (hero_lookup id))
  | SearchByName query page =>
      err_of (heroes_by_name sq st (fault1 env) query (or_default page 1))
  | SearchByMinStats body page =>
      err_of (heroes_by_min_stats sq st (fault1 env)
                (or_default (body_intelligence body) 0)
                (or_default (body_strength body) 0)
                (or_default (body_speed body) 0)
                (or_default (body_durability body) 0)
                (or_default (body_power body) 0)
                (or_default (body_combat body) 0)
                (or_default page 1))
  | PostComment id text =>
      match hero_lookup id with
      | CbErr err => Some err
      | CbOk hero =>
          match hero_id hero with
          | inl _ => None
          | inr ref =>
              err_of (inr (save (fault2 env) (now env) (fresh env)
                             (comments st) ref text))
          end
      end
  | GetComments id page =>
      match hero_lookup id with
      | CbErr err => Some err
      | CbOk hero =>
          match hero_id hero with
          | inl _ => None
          | inr ref =>
              err_of (comments_page sq st (fault2 env) ref (or_default page 1))
          end
      end
  end.

(** ** Sample data *)

Definition stats (i s sp d p c : Z) : Powerstats :=
  {| intelligence := i; strength := s; speed := sp;
     durability := d; power := p; combat := c |}.

(** A hero document with the given identifier, name and stat block, and
    empty strings elsewhere. *)
Definition mkHero (id : ObjectId) (n : string) (ps : Powerstats) : Hero :=
  {| _id := id; original_id := 0; name := n; slug := toLowerCase n;
     powerstats := ps;
     appearance := {| gender := ""; race := ""; height := []; weight := [];
                      eyeColor := ""; hairColor := "" |};
     biography := {| fullName := ""; alterEgos := ""; aliases := [];
                     placeOfBirth := ""; firstAppearance := "";
                     publisher := ""; alignment := "" |};
     work := {| occupation := ""; base := "" |};
     connections := {| groupAffiliation := ""; relatives := "" |};
     images := {| xs := ""; sm := ""; md := ""; lg := "" |};
     createdAt := 0; updatedAt := 0 |}.

Definition id_batman : ObjectId := "5f0000000000000000000001".
Definition id_flash : ObjectId := "5f0000000000000000000002".
Definition id_absent : ObjectId := "5f00000000000000000000ff".

Definition batman : Hero := mkHero id_batman "Batman" (stats 100 26 27 50 47 100).
Definition flash : Hero := mkHero id_flash "Flash" (stats 90 48 100 60 100 60).

Definition comment1 : Comment :=
  {| comment_id := "6a0000000000000000000001"; hero := id_flash;
     text := "first"; comment_createdAt := 1; comment_updatedAt := 1 |}.
Definition comment2 : Comment :=
  {| comment_id := "6a0000000000000000000002"; hero := id_flash;
     text := "second"; comment_createdAt := 2; comment_updatedAt := 2 |}.

Definition sample_store : Store :=
  {| heroes := [flash; batman]; comments := [comment1; comment2] |}.

(** The backends whose store visits documents in natural order. *)
Definition natural (b : bool) : Backend :=
  {| strictQuery := b; tie_order := natural_order |}.
Definition strict : Backend := natural true.
Definition lax : Backend := natural false.

(** A store that visits in natural order for the first page and in the
    opposite order once an offset is asked for. *)
Definition turning_order : TieOrder :=
  {| visit := λ D q l, if (0 <? skipped q)%Z then reverse l else l;
     visit_Permutation := λ D q l,
       match (0 <? skipped q)%Z as b
         return (if b then reverse l else l) ≡ₚ l with
       | true => reverse_Permutation l
       | false => Permutation_refl l
       end |}.
Definition turning : Backend :=
  {| strictQuery := true; tie_order := turning_order |}.

(** Eleven heroes of one name. *)
Definition twin_ids : list ObjectId :=
  [ "5f0000000000000000000a01"; "5f0000000000000000000a02";
    "5f0000000000000000000a03"; "5f0000000000000000000a04";
    "5f0000000000000000000a05"; "5f0000000000000000000a06";
    "5f0000000000000000000a07"; "5f0000000000000000000a08";
    "5f0000000000000000000a09"; "5f0000000000000000000a10";
    "5f0000000000000000000a11" ].
Definition twin (id : ObjectId) : Hero := mkHero id "Twin" (stats 0 0 0 0 0 0).
Definition twin_store : Store :=
  {| heroes := twin <$> twin_ids; comments := [] |}.

(** The body {"intelligence": 95}. *)
Definition min_intelligence_95 : MinStats :=
  {| body_intelligence := Some 95; body_strength := None;
     body_speed := None; body_durability := None;
     body_power := None; body_combat := None |}.

(** The identifier the store would give the next comment. *)
Definition id_new_comment : ObjectId := "6a0000000000000000000003".

(** A request during which the store answers. *)
Definition store_up : Env :=
  {| backend := strict; fault1 := None; fault2 := None;
     now := 5; fresh := id_new_comment |}.

(** A request during which the store cannot be reached. *)
Definition store_down : Env :=
  {| backend := strict; fault1 := Some NetworkError; fault2 := None;
     now := 5; fresh := id_new_comment |}.

(** ** Vocabulary of the stated properties *)

(** The heroes a response carries; none when the handler did not answer
    with a list of heroes. *)
Definition heroes_of (o : outcome) : list Hero :=
  match o with
  | Responded _ (JHeroes l) => l
  | _ => []
  end.

(** The heroes seen by a client that reads pages 1 to [n] of a paginated
    endpoint. *)
Definition all_pages (endpoint : option Z → outcome) (n : nat) : list Hero :=
  concat ((λ i, heroes_of (endpoint (Some (Z.of_nat i)))) <$> seq 1 n).

(** Heroes in ascending order of name. *)
Definition name_le (a b : Hero) : Prop := String.le (name a) (name b).

(** "[n] lower-cased starts with [q] lower-cased". *)
Definition starts_with_ci (q n : string) : bool :=
  String.prefix (toLowerCase q) (toLowerCase n).

(** "All six powerstats are greater than or equal to the query values,
    absent query fields counting as 0". *)
Definition meets_min_stats (body : MinStats) (h : Hero) : bool :=
  let ps := powerstats h in
  (or_default (body_intelligence body) 0 <=? intelligence ps)%Z
  && (or_default (body_strength body) 0 <=? strength ps)%Z
  && (or_default (body_speed body) 0 <=? speed ps)%Z
  && (or_default (body_durability body) 0 <=? durability ps)%Z
  && (or_default (body_power body) 0 <=? power ps)%Z
  && (or_default (body_combat body) 0 <=? combat ps)%Z.

(** A success: a response with a status from 200 to 299. *)
Definition is_success (o : outcome) : Prop :=
  match o with
  | Responded s _ => 200 ≤ s < 300
  | _ => False
  end.

(** A not-found signal: a response with status 404. *)
Definition is_not_found (o : outcome) : Prop :=
  match o with
  | Responded 404 _ => True
  | _ => False
  end.

(** A client validation error: a response with a status from 400 to 499. *)
Definition is_client_error (o : outcome) : Prop :=
  match o with
  | Responded s _ => 400 ≤ s < 500
  | _ => False
  end.

(** The comments a response carries; none when the handler did not answer
    with a list of comments. *)
Definition comments_of (o : outcome) : list Comment :=
  match o with
  | Responded _ (JComments l) => l
  | _ => []
  end.

(** The comments seen by a client that reads pages 1 to [n]. *)
Definition all_comment_pages (endpoint : option Z → outcome) (n : nat)
  : list Comment :=
  concat ((λ i, comments_of (endpoint (Some (Z.of_nat i)))) <$> seq 1 n).

(** Every comment of the store references a hero of the store. *)
Definition refs_ok (st : Store) : Prop :=
  ∀ c, c ∈ comments st → hero c ∈ _id <$> heroes st.

(** The query the listing and the name search send for page [p], once the
    sort value is read as direction [d]. *)
Definition name_page_query (d : direction) (p : Z) : Query :=
  limit DEFAULT_HEROES_PER_PAGE
    (skip ((p - 1) * DEFAULT_HEROES_PER_PAGE) (add_order "name" d (find []))).

(** The heroes [l] as the store sorts them by name for that query. *)
Definition name_sorted (sq : Backend) (d : direction) (p : Z) (l : list Hero)
  : list Hero :=
  sort_by (doc_le [("name", d)]) (visit (tie_order sq) Hero (name_page_query d p) l).

(** The query the comment listing sends for page [p] of the hero [ref]. *)
Definition comments_query (ref : ObjectId) (p : Z) : Query :=
  limit DEFAULT_COMMENTS_PER_PAGE
    (skip ((p - 1) * DEFAULT_COMMENTS_PER_PAGE)
       (sort_string "-timestamps" (find [CondEq "hero" (VId ref)]))).

(** The store orders equal keys alike on every page: its tie order does
    not change with the offset or the limit of a query. *)
Definition steady (t : TieOrder) : Prop :=
  ∀ D (q q' : Query) (l : list D),
    conditions q = conditions q' → order q = order q' →
    visit t D q l = visit t D q' l.

(** The conditions of a query are all on paths the schema declares. *)
Definition declared (paths : list string) (q : Query) : bool :=
  forallb (λ c, string_mem (cond_path c) paths) (conditions q).

(** The identifier names no hero of the store: it is malformed, or it is
    the [_id] of no hero document. *)
Definition no_such_hero (st : Store) (id : string) : Prop :=
  ∀ oid, castObjectId id = Some oid → oid ∉ _id <$> heroes st.

(** ** Sorting *)

Section sort_by.
Context {A : Type} (le : A → A → bool).

Lemma insert_by_Permutation x l : insert_by le x l ≡ₚ x :: l.
Proof.
  induction l as [|y l IH]; simpl; [done|].
  destruct (le x y); [done|].
  rewrite IH. apply Permutation_swap.
Qed.

Lemma sort_by_Permutation l : sort_by le l ≡ₚ l.
Proof.
  induction l as [|x l IH]; simpl; [done|].
  fold (sort_by le l). by rewrite insert_by_Permutation, IH.
Qed.

Lemma sort_by_length l : length (sort_by le l) = length l.
Proof. by rewrite sort_by_Permutation. Qed.

Hypothesis le_total : ∀ a b, le a b = false → le b a = true.

Lemma insert_by_HdRel a x l :
  le a x → HdRel (λ a b, le a b) a l → HdRel (λ a b, le a b) a (insert_by le x l).
Proof.
  intros Hax Hl. destruct l as [|y l]; simpl; [by constructor|].
  destruct (le x y); constructor; [done|]. by inversion Hl.
Qed.

Lemma insert_by_Sorted x l :
  Sorted (λ a b, le a b) l → Sorted (λ a b, le a b) (insert_by le x l).
Proof.
  induction 1 as [|y l Hl IH Hy]; simpl; [by repeat constructor|].
  destruct (le x y) eqn:Hxy.
  - constructor; [by constructor|]. constructor. by rewrite Hxy.
  - constructor; [done|]. apply insert_by_HdRel; [|done].
    by rewrite (le_total _ _ Hxy).
Qed.

Lemma sort_by_Sorted l : Sorted (λ a b, le a b) (sort_by le l).
Proof.
  induction l as [|x l IH]; simpl; [constructor|].
  by apply insert_by_Sorted.
Qed.
End sort_by.

(** With every pair in order, sorting leaves the list as it is. *)
Lemma sort_by_all_le {A} (le : A → A → bool) l :
  (∀ a b, le a b = true) → sort_by le l = l.
Proof.
  intros Hle. induction l as [|x l IH]; simpl; [done|].
  fold (sort_by le l). rewrite IH. destruct l; simpl; [done|]. by rewrite Hle.
Qed.

Lemma sort_by_ext {A} (le le' : A → A → bool) l :
  (∀ a b, le a b = le' a b) → sort_by le l = sort_by le' l.
Proof.
  intros Heq. induction l as [|x l IH]; simpl; [done|].
  fold (sort_by le l) (sort_by le' l). rewrite IH.
  generalize (sort_by le' l). intros k.
  induction k as [|y k IHk]; simpl; [done|]. by rewrite Heq, IHk.
Qed.

(** The comparisons the router's sorts come down to. *)
Lemma doc_le_name_asc (a b : Hero) :
  doc_le [("name", Asc)] a b = String.leb (name a) (name b).
Proof. unfold doc_le, String.leb. simpl. by destruct (String.compare _ _). Qed.

Lemma doc_le_name_desc (a b : Hero) :
  doc_le [("name", Desc)] a b = String.leb (name b) (name a).
Proof. unfold doc_le, String.leb. simpl. by destruct (String.compare _ _). Qed.

Lemma doc_le_timestamps (a b : Comment) :
  doc_le [("timestamps", Desc)] a b = true.
Proof. reflexivity. Qed.

Lemma doc_le_nil `{Document D} (a b : D) : doc_le [] a b = true.
Proof. reflexivity. Qed.

Lemma sorted_by_name_asc l :
  StronglySorted name_le (sort_by (doc_le [("name", Asc)]) l).
Proof.
  rewrite (sort_by_ext _ (λ a b, String.leb (name a) (name b)))
    by apply doc_le_name_asc.
  apply Sorted_StronglySorted.
  { intros a b c. unfold name_le. apply (transitivity (R:=String.le)). }
  apply (sort_by_Sorted (λ a b, String.leb (name a) (name b))).
  intros a b Hab. destruct (String.leb_total (name a) (name b)); congruence.
Qed.

Lemma sorted_by_name_desc l :
  StronglySorted (flip name_le) (sort_by (doc_le [("name", Desc)]) l).
Proof.
  rewrite (sort_by_ext _ (λ a b, String.leb (name b) (name a)))
    by apply doc_le_name_desc.
  apply Sorted_StronglySorted.
  { intros a b c. unfold flip, name_le. intros ??.
    by apply (transitivity (R:=String.le) (y:=name b)). }
  apply (sort_by_Sorted (λ a b, String.leb (name b) (name a))).
  intros a b Hab. destruct (String.leb_total (name a) (name b)); congruence.
Qed.

(** ** Pagination *)

Section pages.
Local Open Scope nat_scope.
Context {A : Type}.
Implicit Types l : list A.

(** Reading the windows of size [k] one after the other reads a prefix
    of the list. *)
Lemma windows_concat l k n :
  concat ((λ i, take k (drop ((i - 1) * k) l)) <$> seq 1 n) = take (n * k) l.
Proof.
  induction n as [|n IH]; [done|].
  rewrite seq_S, fmap_app, concat_app, IH. simpl.
  rewrite app_nil_r, Nat.sub_0_r, take_take_drop. f_equal. lia.
Qed.

Lemma windows_cover l k n :
  List.length l ≤ n * k →
  concat ((λ i, take k (drop ((i - 1) * k) l)) <$> seq 1 n) = l.
Proof. intros Hn. rewrite windows_concat. by apply take_ge. Qed.

(** Two different windows of a duplicate-free list share no element. *)
Lemma windows_disjoint l k i j x :
  NoDup l → i ≠ j →
  x ∈ take k (drop (i * k) l) → x ∉ take k (drop (j * k) l).
Proof.
  intros Hnd Hij [a [Ha Hak]]%elem_of_take [b [Hb Hbk]]%elem_of_take.
  rewrite lookup_drop in Ha, Hb.
  pose proof (NoDup_lookup _ _ _ _ Hnd Ha Hb). nia.
Qed.

Lemma window_length l k n : List.length (take k (drop n l)) ≤ k.
Proof. rewrite length_take. lia. Qed.

Lemma window_beyond l k n : List.length l ≤ n → take k (drop n l) = [].
Proof. intros Hn. rewrite drop_ge by done. apply take_nil. Qed.
End pages.

(** The offset [(page - 1) * size] as a number of documents. *)
Lemma offset_nat (p : Z) :
  1 ≤ p → Z.to_nat ((p - 1) * 10) = ((Z.to_nat p - 1) * 10)%nat.
Proof. intros Hp. lia. Qed.

(** ** What the queries of the router return *)

Lemma filter_no_conditions `{Document D} (docs : list D) :
  List.filter (λ d, forallb (matches d) []) docs = docs.
Proof. induction docs as [|d docs IH]; simpl; [done|]. f_equal. exact IH. Qed.

Lemma name_sorted_Permutation sq d p l : name_sorted sq d p l ≡ₚ l.
Proof. unfold name_sorted. by rewrite sort_by_Permutation, visit_Permutation. Qed.

Lemma name_sorted_length sq d p l :
  List.length (name_sorted sq d p l) = List.length l.
Proof. by rewrite name_sorted_Permutation. Qed.

Lemma name_sorted_asc sq p l : StronglySorted name_le (name_sorted sq Asc p l).
Proof. apply sorted_by_name_asc. Qed.

Lemma name_sorted_desc sq p l :
  StronglySorted (flip name_le) (name_sorted sq Desc p l).
Proof. apply sorted_by_name_desc. Qed.

(** Documents that differ in a field are told apart by it. *)
Lemma NoDup_fmap_eq {A B} (f : A → B) (l : list A) x y :
  NoDup (f <$> l) → x ∈ l → y ∈ l → f x = f y → x = y.
Proof.
  induction l as [|z l IH]; [by intros _ ?%elem_of_nil|].
  rewrite fmap_cons, NoDup_cons. intros [Hz Hnd].
  rewrite !elem_of_cons. intros [->|Hx] [->|Hy] Hf; [done| | |by apply IH].
  - destruct Hz. rewrite Hf. by apply list_elem_of_fmap_2.
  - destruct Hz. rewrite <- Hf. by apply list_elem_of_fmap_2.
Qed.

(** Where no two heroes share a name, the order of the sorted collection
    owes nothing to the store's tie order. *)
Lemma name_sorted_distinct sq d p l :
  NoDup (name <$> l) →
  name_sorted sq d p l = sort_by (doc_le [("name", d)]) l.
Proof.
  intros Hnd.
  assert (∀ x y, x ∈ name_sorted sq d p l →
                 y ∈ sort_by (doc_le [("name", d)]) l →
                 String.le (name x) (name y) → String.le (name y) (name x) →
                 x = y) as Hanti.
  { intros x y Hx Hy Hxy Hyx.
    rewrite name_sorted_Permutation in Hx. rewrite sort_by_Permutation in Hy.
    apply (NoDup_fmap_eq name l); [done..|].
    by apply (anti_symm String.le). }
  assert (name_sorted sq d p l ≡ₚ sort_by (doc_le [("name", d)]) l) as Hperm
    by by rewrite name_sorted_Permutation, sort_by_Permutation.
  destruct d.
  - apply (StronglySorted_unique_strong name_le); [|apply name_sorted_asc
                                                   |apply sorted_by_name_asc|done].
    intros x y ??. by apply Hanti.
  - apply (StronglySorted_unique_strong (flip name_le));
      [|apply name_sorted_desc|apply sorted_by_name_desc|done].
    intros x y ?? Hxy Hyx. by apply Hanti.
Qed.

(** The name-sorted listing shared by GET /heroes and the name search: no
    filter, the window of the page over the sorted collection. *)
Lemma heroes_by_name_ok sq st v d p :
  sort_value v = Some d → 1 ≤ p →
  heroes_by_name sq st None v p =
    inr (CbOk (take 10 (drop (Z.to_nat ((p - 1) * 10))
                          (name_sorted sq d p (heroes st))))).
Proof.
  intros Hv Hp. unfold heroes_by_name, sort_object. rewrite Hv. simpl.
  unfold run. simpl.
  assert (cast_conditions (strictQuery sq) hero_paths [] = []) as ->
    by by destruct (strictQuery sq).
  rewrite filter_no_conditions.
  unfold DEFAULT_HEROES_PER_PAGE.
  destruct ((p - 1) * 10 <? 0)%Z eqn:Hneg; [lia|done].
Qed.

Lemma heroes_by_name_invalid sq st fault v p :
  sort_value v = None →
  heroes_by_name sq st fault v p =
    inl (TypeError ("Invalid sort value: { name: " +:+ show v +:+ " }")).
Proof. intros Hv. unfold heroes_by_name, sort_object. by rewrite Hv. Qed.

Lemma search_by_name_page sq st v d p :
  sort_value v = Some d → 1 ≤ p →
  search_heroes_by_name sq st None v (Some p) =
    Responded 200
      (JHeroes (take 10 (drop (Z.to_nat ((p - 1) * 10))
                           (name_sorted sq d p (heroes st))))).
Proof.
  intros Hv Hp. unfold search_heroes_by_name. simpl.
  by rewrite (heroes_by_name_ok _ _ _ d).
Qed.

Lemma search_by_name_page_distinct sq st v d p :
  NoDup (name <$> heroes st) → sort_value v = Some d → 1 ≤ p →
  search_heroes_by_name sq st None v (Some p) =
    Responded 200
      (JHeroes (take 10 (drop (Z.to_nat ((p - 1) * 10))
                           (sort_by (doc_le [("name", d)]) (heroes st))))).
Proof.
  intros Hnd Hv Hp.
  by rewrite (search_by_name_page _ _ _ d), name_sorted_distinct.
Qed.

Lemma search_by_name_all_pages sq st v d n :
  NoDup (name <$> heroes st) →
  sort_value v = Some d → (List.length (heroes st) ≤ n * 10)%nat →
  all_pages (search_heroes_by_name sq st None v) n =
    sort_by (doc_le [("name", d)]) (heroes st).
Proof.
  intros Hnd Hv Hn. unfold all_pages.
  rewrite <- (windows_cover (sort_by (doc_le [("name", d)]) (heroes st)) 10 n)
    by by rewrite sort_by_length.
  f_equal. apply list_fmap_ext. intros i k [-> Hi]%lookup_seq.
  rewrite (search_by_name_page_distinct _ _ _ d) by (done || lia). simpl.
  do 2 f_equal. lia.
Qed.

(** GET /heroes is the name search with the literal direction ['asc']. *)
Lemma get_heroes_as_search sq st fault pg :
  get_heroes sq st fault pg = search_heroes_by_name sq st fault (Some "asc") pg.
Proof. reflexivity. Qed.

(** The sample store holds no two heroes of one name. *)
Lemma sample_names_distinct : NoDup (name <$> heroes sample_store).
Proof. compute_done. Qed.

(** ** GET /heroes *)

(** C5. For every page number p ≥ 1 (and page 1 when the number is
    omitted), GET /heroes answers with the window of offset (p-1)×10 and
    limit 10 over the whole hero collection sorted by name ascending; no
    hero is filtered out, and a page beyond the last is the empty list,
    not an error. *)
Theorem get_heroes_window sq st p :
  1 ≤ p →
  let sorted := name_sorted sq Asc p (heroes st) in
  sorted ≡ₚ heroes st ∧
  StronglySorted name_le sorted ∧
  get_heroes sq st None (Some p) =
    Responded 200 (JHeroes (take 10 (drop (Z.to_nat ((p - 1) * 10)) sorted))) ∧
  (Z.of_nat (List.length (heroes st)) ≤ (p - 1) * 10 →
   get_heroes sq st None (Some p) = Responded 200 (JHeroes [])) ∧
  get_heroes sq st None None = get_heroes sq st None (Some 1).
Proof.
  intros Hp sorted.
  assert (get_heroes sq st None (Some p) =
          Responded 200 (JHeroes (take 10 (drop (Z.to_nat ((p - 1) * 10)) sorted))))
    as Hpage by by apply search_by_name_page.
  split_and!; [apply name_sorted_Permutation|apply name_sorted_asc|done| |done].
  intros Hlast. rewrite Hpage. do 2 f_equal. apply window_beyond.
  unfold sorted. rewrite name_sorted_length. lia.
Qed.

Lemma get_heroes_window_witness :
  1 ≤ 1 ∧
  get_heroes strict sample_store None (Some 1) =
    Responded 200 (JHeroes [batman; flash]).
Proof.
  split; [lia|].
  destruct (get_heroes_window strict sample_store 1) as (_ & _ & Hpage & _);
    [lia|exact Hpage].
Defined.

(** C6, as stated, fails.  Eleven heroes share one name, and the store
    orders them one way for the first page and the other way once an
    offset is asked for: the first hero is on page 1 and again on page 2,
    and the last hero is on no page. *)
Lemma get_heroes_pages_overlap :
  NoDup (_id <$> heroes twin_store) ∧
  twin "5f0000000000000000000a01"
    ∈ heroes_of (get_heroes turning twin_store None (Some 1)) ∧
  twin "5f0000000000000000000a01"
    ∈ heroes_of (get_heroes turning twin_store None (Some 2)) ∧
  twin "5f0000000000000000000a11" ∈ heroes twin_store ∧
  twin "5f0000000000000000000a11"
    ∉ all_pages (get_heroes turning twin_store None) 2.
Proof. split_and!; compute_done. Qed.

(** C6, amended.  In a store where no two heroes share a name, every page
    p ≥ 1 of GET /heroes holds at most 10 records, two different pages
    have no record in common, and the pages read one after the other are
    the whole hero collection in ascending order of name. *)
Theorem get_heroes_pages_partition sq st :
  NoDup (name <$> heroes st) →
  let page p := heroes_of (get_heroes sq st None (Some p)) in
  (∀ p, 1 ≤ p →
     ∃ l, get_heroes sq st None (Some p) = Responded 200 (JHeroes l)
          ∧ (List.length l ≤ 10)%nat) ∧
  (∀ p q h, 1 ≤ p → 1 ≤ q → p ≠ q → h ∈ page p → h ∉ page q) ∧
  (∀ n, (List.length (heroes st) ≤ n * 10)%nat →
     all_pages (get_heroes sq st None) n ≡ₚ heroes st ∧
     StronglySorted name_le (all_pages (get_heroes sq st None) n)).
Proof.
  intros Hnd page. split_and!.
  - intros p Hp. eexists. split; [by apply (search_by_name_page _ _ _ Asc)|].
    apply window_length.
  - intros p q h Hp Hq Hpq. unfold page.
    rewrite !get_heroes_as_search,
      !(search_by_name_page_distinct _ _ _ Asc) by done.
    simpl. rewrite (offset_nat p), (offset_nat q) by done.
    apply windows_disjoint; [|lia].
    rewrite sort_by_Permutation. by apply (NoDup_fmap_1 name).
  - intros n Hn.
    assert (all_pages (get_heroes sq st None) n =
            sort_by (doc_le [("name", Asc)]) (heroes st)) as ->
      by by apply (search_by_name_all_pages _ _ (Some "asc")).
    split; [apply sort_by_Permutation|apply sorted_by_name_asc].
Qed.

Lemma get_heroes_pages_partition_witness :
  NoDup (name <$> heroes sample_store) ∧
  all_pages (get_heroes strict sample_store None) 1 ≡ₚ heroes sample_store.
Proof.
  split; [exact sample_names_distinct|].
  destruct (get_heroes_pages_partition strict sample_store sample_names_distinct)
    as (_ & _ & Hall).
  apply (Hall 1%nat). simpl. lia.
Defined.

(** ** POST /search/heroes/by-name *)

(** C1. The name search does not select by prefix.  On a store holding
    Flash and Batman, the query "desc" is answered with both heroes,
    neither of whose names starts with it, in descending order of name;
    the query "fla" makes the handler raise, so Flash, whose lower-cased
    name starts with "fla", is not returned. *)
Theorem search_by_name_not_prefix_filter sq :
  search_heroes_by_name sq sample_store None (Some "desc") None =
    Responded 200 (JHeroes [flash; batman]) ∧
  starts_with_ci "desc" (name flash) = false ∧
  starts_with_ci "desc" (name batman) = false ∧
  search_heroes_by_name sq sample_store None (Some "fla") None =
    Threw (TypeError "Invalid sort value: { name: fla }") ∧
  starts_with_ci "fla" (name flash) = true.
Proof.
  split_and!; [|done|done| |done].
  - change (search_heroes_by_name sq sample_store None (Some "desc") None)
      with (search_heroes_by_name sq sample_store None (Some "desc") (Some 1)).
    by rewrite (search_by_name_page_distinct _ _ _ Desc)
      by (done || apply sample_names_distinct).
  - unfold search_heroes_by_name. by rewrite heroes_by_name_invalid.
Qed.

(** C9. The query string does change which heroes are returned: on the
    same store the query "asc" is answered with the whole collection and
    the query "fla" with no hero at all, the handler raising on it. *)
Theorem search_by_name_query_changes_members sq :
  all_pages (search_heroes_by_name sq sample_store None (Some "asc")) 1 =
    [batman; flash] ∧
  search_heroes_by_name sq sample_store None (Some "fla") (Some 1) =
    Threw (TypeError "Invalid sort value: { name: fla }") ∧
  all_pages (search_heroes_by_name sq sample_store None (Some "fla")) 1 = [] ∧
  ¬ (all_pages (search_heroes_by_name sq sample_store None (Some "asc")) 1
       ≡ₚ all_pages (search_heroes_by_name sq sample_store None (Some "fla")) 1) ∧
  ¬ (all_pages (search_heroes_by_name sq sample_store None (Some "fla")) 1
       ≡ₚ heroes sample_store).
Proof.
  assert (all_pages (search_heroes_by_name sq sample_store None (Some "asc")) 1 =
            [batman; flash]) as Hasc.
  { by rewrite (search_by_name_all_pages _ _ _ Asc)
      by (done || apply sample_names_distinct || (simpl; lia)). }
  assert (search_heroes_by_name sq sample_store None (Some "fla") (Some 1) =
            Threw (TypeError "Invalid sort value: { name: fla }")) as Hfla.
  { unfold search_heroes_by_name. by rewrite heroes_by_name_invalid. }
  assert (all_pages (search_heroes_by_name sq sample_store None (Some "fla")) 1 = [])
    as Hnone.
  { reflexivity. }
  rewrite Hasc, Hnone. split_and!; [done|done|done| |].
  - intros Hp. by apply Permutation_nil_r in Hp.
  - intros Hp. by apply Permutation_nil_l in Hp.
Qed.



(** ** POST /search/heroes/by-min-stats *)

(** What the six conditions select, whatever their bounds: every hero when
    the cast removes them, none when they reach the store. *)
Lemma min_stats_selection (b : bool) (docs : list Hero) i s sp d p c :
  List.filter
    (λ h, forallb (matches h)
            (cast_conditions b hero_paths
               [CondGte "intelligence" i; CondGte "strength" s;
                CondGte "speed" sp; CondGte "durability" d;
                CondGte "power" p; CondGte "combat" c])) docs
  = if b then docs else [].
Proof.
  destruct b; simpl.
  - apply filter_no_conditions.
  - induction docs; by simpl.
Qed.

Lemma heroes_by_min_stats_args sq st fault i s sp d p c page :
  heroes_by_min_stats sq st fault i s sp d p c page =
    inr (match fault with
         | Some err => CbErr err
         | None =>
             if ((page - 1) * 10 <? 0)%Z
             then CbErr (ServerError "Skip value must be non-negative")
             else CbOk (take 10 (drop (Z.to_nat ((page - 1) * 10))
                                   (if strictQuery sq then heroes st else [])))
         end).
Proof.
  unfold heroes_by_min_stats. simpl. f_equal. destruct fault; [done|].
  pose proof (min_stats_selection (strictQuery sq) (heroes st) i s sp d p c)
    as Hsel.
  unfold run, DEFAULT_HEROES_PER_PAGE. simpl.
  destruct (strictQuery sq); simpl in Hsel |- *;
    rewrite Hsel, sort_by_all_le by done;
    by destruct ((page - 1) * 10 <? 0)%Z.
Qed.

(** The six conditions name paths the hero schema does not declare: the
    stat fields are nested under [powerstats].  Under [strictQuery] the
    filter is emptied and the page is a window of the whole, unsorted
    collection. *)
Lemma min_stats_strict sq st body p :
  strictQuery sq = true → 1 ≤ p →
  search_heroes_by_min_stats sq st None body (Some p) =
    Responded 200
      (JHeroes (take 10 (drop (Z.to_nat ((p - 1) * 10)) (heroes st)))).
Proof.
  intros Hsq Hp. unfold search_heroes_by_min_stats.
  rewrite heroes_by_min_stats_args, Hsq. cbn [or_default callback].
  destruct ((p - 1) * 10 <? 0)%Z eqn:Hneg; [lia|done].
Qed.

(** Without [strictQuery] the conditions reach the store, where no hero
    document has a top-level stat field: nothing matches. *)
Lemma min_stats_lax sq st body p :
  strictQuery sq = false → 1 ≤ p →
  search_heroes_by_min_stats sq st None body (Some p) =
    Responded 200 (JHeroes []).
Proof.
  intros Hsq Hp. unfold search_heroes_by_min_stats.
  rewrite heroes_by_min_stats_args, Hsq. cbn [or_default callback].
  destruct ((p - 1) * 10 <? 0)%Z eqn:Hneg; [lia|].
  by rewrite drop_nil.
Qed.

(** C2. The stat search does not select by the six minima.  For the body
    {"intelligence": 95}, on a store holding Flash (intelligence 90) and
    Batman (intelligence 100): under [strictQuery] both heroes are
    returned, Flash included; without it none is, Batman included. *)
Theorem search_by_min_stats_not_threshold_filter :
  meets_min_stats min_intelligence_95 flash = false ∧
  meets_min_stats min_intelligence_95 batman = true ∧
  search_heroes_by_min_stats strict sample_store None min_intelligence_95 None =
    Responded 200 (JHeroes [flash; batman]) ∧
  search_heroes_by_min_stats lax sample_store None min_intelligence_95 None =
    Responded 200 (JHeroes []).
Proof. done. Qed.

(** ** Looking a hero up by identifier *)

Lemma findById_malformed sq fault docs id :
  castObjectId id = None → findById sq fault docs id = CbErr (CastError "_id" id).
Proof. intros Hid. unfold findById. by rewrite Hid. Qed.

Lemma findById_fault sq err docs id oid :
  castObjectId id = Some oid → findById sq (Some err) docs id = CbErr err.
Proof. intros Hid. unfold findById. by rewrite Hid. Qed.

(** A well-formed identifier is looked up among the [_id] fields. *)
Lemma findById_lookup sq docs id oid :
  castObjectId id = Some oid →
  findById sq None docs id =
    CbOk (head (List.filter (λ h, bool_decide (_id h = oid)) docs)).
Proof.
  intros Hid. unfold findById, run. rewrite Hid. simpl.
  assert (cast_conditions (strictQuery sq) hero_paths [CondEq "_id" (VId oid)]
          = [CondEq "_id" (VId oid)]) as -> by by destruct (strictQuery sq).
  rewrite sort_by_all_le by done. f_equal.
  rewrite (List.filter_ext _ (λ h, bool_decide (_id h = oid))).
  - by destruct (List.filter _ docs).
  - intros h. simpl. rewrite andb_true_r.
    apply bool_decide_ext. unfold get. simpl. split; [by intros [=]|congruence].
Qed.

Lemma findById_absent sq docs id oid :
  castObjectId id = Some oid → oid ∉ _id <$> docs →
  findById sq None docs id = CbOk None.
Proof.
  intros Hid Hnone. rewrite (findById_lookup _ _ _ oid) by done. f_equal.
  induction docs as [|h docs IH]; [done|].
  rewrite fmap_cons, not_elem_of_cons in Hnone. destruct Hnone as [Hh Hdocs].
  cbn [List.filter]. case_bool_decide; [congruence|by apply IH].
Qed.

Lemma findById_present sq docs id oid :
  castObjectId id = Some oid → oid ∈ _id <$> docs →
  ∃ h, findById sq None docs id = CbOk (Some h) ∧ _id h = oid ∧ h ∈ docs.
Proof.
  intros Hid Hsome. rewrite (findById_lookup _ _ _ oid) by done.
  induction docs as [|h docs IH]; [by apply elem_of_nil in Hsome|].
  cbn [List.filter]. case_bool_decide as Hh.
  - exists h. split_and!; [done|done|left].
  - rewrite fmap_cons, elem_of_cons in Hsome.
    destruct Hsome as [?|Hsome]; [done|].
    destruct (IH Hsome) as (h' & ? & ? & ?).
    exists h'. split_and!; [done|done|by right].
Qed.

(** The error branch of every callback raises: [handleError] is bound
    nowhere. *)
Lemma handleError_unbound err : handleError err = Threw (ReferenceError "handleError").
Proof. reflexivity. Qed.

(** ** GET /heroes/:id *)

(** C7. A malformed identifier is not answered with a validation error.
    The failed cast reaches the callback's error branch, which raises; no
    response is sent, so none of status 400 to 499. *)
Theorem get_hero_malformed_id sq st fault id :
  castObjectId id = None →
  get_hero sq st fault id = Threw (ReferenceError "handleError") ∧
  ¬ is_client_error (get_hero sq st fault id).
Proof.
  intros Hid. unfold get_hero. rewrite findById_malformed by done. simpl.
  split; [done|]. by intros [].
Qed.

Lemma get_hero_malformed_id_witness :
  castObjectId "not-an-id" = None ∧
  get_hero strict sample_store None "not-an-id" = Threw (ReferenceError "handleError").
Proof.
  split; [reflexivity|].
  apply (get_hero_malformed_id strict sample_store None "not-an-id"). reflexivity.
Defined.

(** C8, as stated, fails: a well-formed identifier that matches no hero is
    answered with status 200 and the payload null, not with a not-found
    signal. *)
Lemma get_hero_absent_is_null_success :
  castObjectId id_absent = Some id_absent ∧
  (id_absent ∉ _id <$> heroes sample_store) ∧
  get_hero strict sample_store None id_absent = Responded 200 JNull ∧
  ¬ is_not_found (get_hero strict sample_store None id_absent).
Proof.
  split_and!; [done|compute_done|done|by intros []].
Qed.

(** C8, amended.  For every well-formed identifier that matches no stored
    hero, GET /heroes/:id answers with status 200 and the payload null. *)
Theorem get_hero_absent sq st id oid :
  castObjectId id = Some oid → oid ∉ _id <$> heroes st →
  get_hero sq st None id = Responded 200 JNull.
Proof.
  intros Hid Hnone. unfold get_hero.
  by rewrite (findById_absent _ _ _ oid).
Qed.

Lemma get_hero_absent_witness :
  castObjectId id_absent = Some id_absent ∧
  (id_absent ∉ _id <$> heroes sample_store) ∧
  get_hero lax sample_store None id_absent = Responded 200 JNull.
Proof.
  assert (id_absent ∉ _id <$> heroes sample_store) as Hnone by compute_done.
  split_and!; [reflexivity|exact Hnone|].
  by apply (get_hero_absent lax sample_store id_absent id_absent).
Defined.

(** ** POST /heroes/:id/comments *)

(** C3. A creation against an identifier that names no hero does not fail
    with a not-found error.  The handler raises, in the error branch of
    the lookup or on reading [_id] of the null the lookup found, and sends
    no response; the comment collection is left as it was. *)
Theorem post_comment_no_such_hero sq st fault fault' now fresh id text :
  no_such_hero st id →
  (fst (post_comment sq st fault fault' now fresh id text) =
     Threw (ReferenceError "handleError") ∨
   fst (post_comment sq st fault fault' now fresh id text) =
     Threw (TypeError "Cannot read properties of null (reading '_id')")) ∧
  ¬ is_not_found (fst (post_comment sq st fault fault' now fresh id text)) ∧
  snd (post_comment sq st fault fault' now fresh id text) = st.
Proof.
  intros Hnone. unfold post_comment.
  destruct (castObjectId id) as [oid|] eqn:Hid.
  - destruct fault as [err|].
    + rewrite (findById_fault _ _ _ _ oid) by done. simpl. auto.
    + rewrite (findById_absent _ _ _ oid) by auto. simpl. auto.
  - rewrite findById_malformed by done. simpl. auto.
Qed.

Lemma post_comment_no_such_hero_witness :
  no_such_hero sample_store id_absent ∧
  post_comment lax sample_store None None 5 id_new_comment id_absent (Some "hello") =
    (Threw (TypeError "Cannot read properties of null (reading '_id')"),
     sample_store).
Proof.
  assert (no_such_hero sample_store id_absent) as Hnone.
  { intros oid [= <-]. compute_done. }
  split; [exact Hnone|].
  destruct (post_comment_no_such_hero lax sample_store None None 5
              id_new_comment id_absent (Some "hello") Hnone) as ([H|H] & _ & Hst).
  - discriminate H.
  - by rewrite (surjective_pairing (post_comment _ _ _ _ _ _ _ _)), H, Hst.
Defined.

(** ** GET /heroes/:id/comments *)

(** The sort key [timestamps] is a field of no comment, so every pair of
    comments compares equal: the window is cut from the hero's comments in
    whatever order the store comes upon them. *)
Lemma comments_page_ok sq st ref p :
  1 ≤ p →
  comments_page sq st None ref p =
    inr (CbOk (take 3 (drop (Z.to_nat ((p - 1) * 3))
                 (visit (tie_order sq) Comment (comments_query ref p)
                    (List.filter (λ c, bool_decide (hero c = ref))
                       (comments st)))))).
Proof.
  intros Hp. unfold comments_page. simpl. unfold run. simpl.
  assert (cast_conditions (strictQuery sq) comment_paths [CondEq "hero" (VId ref)]
          = [CondEq "hero" (VId ref)]) as -> by by destruct (strictQuery sq).
  rewrite sort_by_all_le by done.
  rewrite (List.filter_ext _ (λ c, bool_decide (hero c = ref))).
  - unfold DEFAULT_COMMENTS_PER_PAGE.
    destruct ((p - 1) * 3 <? 0)%Z eqn:Hneg; [lia|done].
  - intros c. simpl. rewrite andb_true_r.
    apply bool_decide_ext. unfold get. simpl. split; [by intros [=]|congruence].
Qed.

Lemma get_comments_page sq st id oid p :
  castObjectId id = Some oid → oid ∈ _id <$> heroes st → 1 ≤ p →
  get_comments sq st None None id (Some p) =
    Responded 200
      (JComments (take 3 (drop (Z.to_nat ((p - 1) * 3))
                    (visit (tie_order sq) Comment (comments_query oid p)
                       (List.filter (λ c, bool_decide (hero c = oid))
                          (comments st)))))).
Proof.
  intros Hid Hsome Hp. unfold get_comments.
  destruct (findById_present sq _ _ _ Hid Hsome) as (h & -> & <- & _).
  cbn [callback hero_id or_default]. by rewrite comments_page_ok.
Qed.

(** A store that visits in natural order lists the hero's comments in the
    collection's order, oldest first. *)
Lemma get_comments_natural_order b st id oid p :
  castObjectId id = Some oid → oid ∈ _id <$> heroes st → 1 ≤ p →
  get_comments (natural b) st None None id (Some p) =
    Responded 200
      (JComments (take 3 (drop (Z.to_nat ((p - 1) * 3))
                    (List.filter (λ c, bool_decide (hero c = oid)) (comments st))))).
Proof. intros Hid Hsome Hp. by rewrite (get_comments_page _ _ _ oid). Qed.

(** C4. The comment listing is not newest-first.  Flash has two comments,
    created at times 1 and 2; with the store visiting in natural order,
    page 1 lists the one created at time 1 before the one created at
    time 2. *)
Theorem get_comments_oldest_first (b : bool) :
  get_comments (natural b) sample_store None None id_flash None =
    Responded 200 (JComments [comment1; comment2]) ∧
  comment_createdAt comment1 < comment_createdAt comment2.
Proof. by destruct b. Qed.

(** ** The error branch *)

(** C10. Whenever a query of a request reports an error to its callback,
    on any of the six endpoints, the handler calls [handleError], a name
    bound nowhere in scope: the call raises a reference error, no JSON
    response is produced, and the store is as it was. *)
Theorem error_branch_raises env st r err :
  reported_error env st r = Some err →
  in_scope "handleError" = false ∧
  route env st r = (Threw (ReferenceError "handleError"), st).
Proof.
  intros Herr. split; [done|].
  destruct r; unfold reported_error in Herr; unfold route;
    cbv beta iota zeta in Herr.
  - unfold get_heroes. by destruct (heroes_page _ _ _ _) as [?|[?|?]].
  - unfold get_hero. by destruct (findById _ _ _ _).
  - unfold search_heroes_by_name. by destruct (heroes_by_name _ _ _ _ _) as [?|[?|?]].
  - unfold search_heroes_by_min_stats.
    by destruct (heroes_by_min_stats _ _ _ _ _ _ _ _ _ _) as [?|[?|?]].
  - unfold post_comment. destruct (findById _ _ _ _); [done|].
    destruct (hero_id _); [done|]. by destruct (save _ _ _ _ _ _) as [?|[??]].
  - unfold get_comments. destruct (findById _ _ _ _); [done|].
    cbn [callback]. destruct (hero_id _); [done|].
    by destruct (comments_page _ _ _ _ _) as [?|[?|?]].
Qed.

Lemma error_branch_raises_witness :
  reported_error store_down sample_store (GetHeroes None) = Some NetworkError ∧
  route store_down sample_store (GetHeroes None) =
    (Threw (ReferenceError "handleError"), sample_store).
Proof.
  split; [reflexivity|].
  apply (error_branch_raises store_down sample_store (GetHeroes None) NetworkError).
  reflexivity.
Defined.

(** ** Further properties of the stat search *)

(** The stat search never reads its body: two requests that differ only in
    the body are answered alike, whatever the store, the mapper's option,
    the page and the store's fault. *)
Theorem search_by_min_stats_ignores_body sq st fault body body' page :
  search_heroes_by_min_stats sq st fault body page =
  search_heroes_by_min_stats sq st fault body' page.
Proof.
  unfold search_heroes_by_min_stats. by rewrite !heroes_by_min_stats_args.
Qed.

(** Read page after page, the stat search yields the whole collection in
    store order under [strictQuery], and nothing without it. *)
Theorem search_by_min_stats_all_pages sq st body n :
  (List.length (heroes st) ≤ n * 10)%nat →
  all_pages (search_heroes_by_min_stats sq st None body) n =
    if strictQuery sq then heroes st else [].
Proof.
  intros Hn. unfold all_pages.
  rewrite <- (windows_cover (if strictQuery sq then heroes st else []) 10 n)
    by (destruct (strictQuery sq); [done|cbn [List.length]; lia]).
  f_equal. apply list_fmap_ext. intros i k [-> Hi]%lookup_seq.
  unfold search_heroes_by_min_stats. rewrite heroes_by_min_stats_args.
  cbn [or_default].
  destruct ((Z.of_nat (1 + i) - 1) * 10 <? 0)%Z eqn:Hneg;
    [apply Z.ltb_lt in Hneg; lia|].
  simpl. do 2 f_equal. lia.
Qed.

Lemma search_by_min_stats_all_pages_witness :
  (List.length (heroes sample_store) ≤ 1 * 10)%nat ∧
  all_pages (search_heroes_by_min_stats strict sample_store None min_intelligence_95) 1
    = [flash; batman].
Proof.
  assert (List.length (heroes sample_store) ≤ 1 * 10)%nat as Hn by (simpl; lia).
  split; [exact Hn|].
  apply (search_by_min_stats_all_pages strict sample_store min_intelligence_95 1 Hn).
Defined.

(** ** Further properties of the name search *)

(** A query that spells the descending direction is answered, on every
    page p ≥ 1, with the window of offset (p-1)×10 and limit 10 over the
    whole collection sorted by name descending. *)
Theorem search_by_name_descending sq st q p :
  sort_value q = Some Desc → 1 ≤ p →
  let sorted := name_sorted sq Desc p (heroes st) in
  sorted ≡ₚ heroes st ∧
  StronglySorted (flip name_le) sorted ∧
  search_heroes_by_name sq st None q (Some p) =
    Responded 200 (JHeroes (take 10 (drop (Z.to_nat ((p - 1) * 10)) sorted))).
Proof.
  intros Hq Hp sorted.
  split_and!; [apply name_sorted_Permutation|apply name_sorted_desc|].
  by apply search_by_name_page.
Qed.

Lemma search_by_name_descending_witness :
  sort_value (Some "descending") = Some Desc ∧ 1 ≤ 1 ∧
  search_heroes_by_name strict sample_store None (Some "descending") (Some 1) =
    Responded 200 (JHeroes [flash; batman]).
Proof.
  split_and!; [reflexivity|lia|].
  destruct (search_by_name_descending strict sample_store (Some "descending") 1)
    as (_ & _ & Hpage); [reflexivity|lia|exact Hpage].
Defined.

(** A query that spells the ascending direction makes the name search
    answer exactly as GET /heroes does, on every page and under every
    fault of the store. *)
Theorem search_by_name_ascending_is_listing sq st fault q page :
  sort_value q = Some Asc →
  search_heroes_by_name sq st fault q page = get_heroes sq st fault page.
Proof.
  intros Hq. unfold search_heroes_by_name, get_heroes, heroes_by_name,
    heroes_page, sort_object.
  by rewrite Hq.
Qed.

Lemma search_by_name_ascending_is_listing_witness :
  sort_value (Some "1") = Some Asc ∧
  search_heroes_by_name lax sample_store None (Some "1") (Some 1) =
    get_heroes lax sample_store None (Some 1).
Proof.
  split; [reflexivity|].
  by apply (search_by_name_ascending_is_listing lax sample_store None (Some "1")).
Defined.

(** ** Pages below the first *)

Lemma exec_negative_skip `{Document D} sq fault (docs : list D) q :
  skipped q < 0 → ∃ err, exec sq fault docs (inr q) = inr (CbErr err).
Proof.
  intros Hneg. unfold exec, run. destruct fault; [by eexists|].
  apply Z.ltb_lt in Hneg. rewrite Hneg. by eexists.
Qed.

(** A page number p ≤ 0 gives a negative offset, which the store refuses:
    on each of the four paginated routes the refusal reaches the error
    branch and the handler raises instead of answering. *)
Theorem non_positive_page_raises sq st fault p :
  p ≤ 0 →
  get_heroes sq st fault (Some p) = Threw (ReferenceError "handleError") ∧
  (∀ q, is_Some (sort_value q) →
     search_heroes_by_name sq st fault q (Some p) =
       Threw (ReferenceError "handleError")) ∧
  (∀ body,
     search_heroes_by_min_stats sq st fault body (Some p) =
       Threw (ReferenceError "handleError")) ∧
  (∀ fault' id oid,
     castObjectId id = Some oid → oid ∈ _id <$> heroes st →
     get_comments sq st None fault' id (Some p) =
       Threw (ReferenceError "handleError")).
Proof.
  intros Hp.
  assert (∀ q, is_Some (sort_value q) →
            search_heroes_by_name sq st fault q (Some p) =
              Threw (ReferenceError "handleError")) as Hname.
  { intros q [d Hq]. unfold search_heroes_by_name, heroes_by_name, sort_object.
    rewrite Hq. cbn [and_then or_default].
    edestruct (exec_negative_skip sq fault (heroes st)) as [err ->]; [|done].
    simpl. unfold DEFAULT_HEROES_PER_PAGE. lia. }
  split_and!; [by apply (Hname (Some "asc")); eexists|done| |].
  - intros body. unfold search_heroes_by_min_stats.
    rewrite heroes_by_min_stats_args. cbn [or_default].
    destruct fault; [done|].
    destruct ((p - 1) * 10 <? 0)%Z eqn:Hneg; [done|].
    apply Z.ltb_ge in Hneg. lia.
  - intros fault' id oid Hid Hsome. unfold get_comments.
    destruct (findById_present sq _ _ _ Hid Hsome) as (h & -> & _).
    cbn [callback hero_id or_default]. unfold comments_page.
    cbn [and_then].
    edestruct (exec_negative_skip sq fault' (comments st)) as [err ->]; [|done].
    simpl. unfold DEFAULT_COMMENTS_PER_PAGE. lia.
Qed.

Lemma non_positive_page_raises_witness :
  0 ≤ 0 ∧
  get_heroes strict sample_store None (Some 0) = Threw (ReferenceError "handleError").
Proof.
  split; [lia|].
  destruct (non_positive_page_raises strict sample_store None 0) as (Hlist & _);
    [lia|exact Hlist].
Defined.

(** ** Further properties of GET /heroes/:id *)

Lemma head_filter_elem {A} (P : A → bool) (l : list A) x :
  head (List.filter P l) = Some x → x ∈ l ∧ P x = true.
Proof.
  induction l as [|y l IH]; simpl; [done|].
  destruct (P y) eqn:Hy; simpl.
  - intros [= ->]. split; [left|done].
  - intros [??]%IH. split; [by right|done].
Qed.

Lemma head_filter_id (l : list Hero) h :
  NoDup (_id <$> l) → h ∈ l →
  head (List.filter (λ x, bool_decide (_id x = _id h)) l) = Some h.
Proof.
  induction l as [|y l IH]; [by intros _ ?%elem_of_nil|].
  rewrite fmap_cons, NoDup_cons. intros [Hy Hnd] Hh. cbn [List.filter].
  apply elem_of_cons in Hh as [->|Hh].
  - by rewrite bool_decide_true.
  - rewrite bool_decide_false; [by apply IH|].
    intros Heq. apply Hy. rewrite Heq. by apply list_elem_of_fmap_2.
Qed.

(** GET /heroes/:id ends in one of three ways: the error branch raises, or
    the answer is null, or the answer is a hero of the store whose [_id]
    is the identifier asked for.  It never answers with another hero and
    never with a status other than 200. *)
Theorem get_hero_outcomes sq st fault id :
  get_hero sq st fault id = Threw (ReferenceError "handleError") ∨
  get_hero sq st fault id = Responded 200 JNull ∨
  ∃ h, get_hero sq st fault id = Responded 200 (JHero h) ∧
       h ∈ heroes st ∧ castObjectId id = Some (_id h).
Proof.
  unfold get_hero. destruct (castObjectId id) as [oid|] eqn:Hid.
  - destruct fault as [err|].
    + left. by rewrite (findById_fault _ _ _ _ oid).
    + right. rewrite (findById_lookup _ _ _ oid) by done. cbn [callback].
      destruct (head _) as [h|] eqn:Hhead; [right|by left].
      apply head_filter_elem in Hhead as [Hh Hoid].
      apply bool_decide_eq_true in Hoid. exists h. by rewrite Hoid.
  - left. by rewrite findById_malformed.
Qed.

(** In a store whose heroes have pairwise distinct identifiers, asking for
    a hero by any spelling of its identifier is answered with that hero. *)
Theorem get_hero_finds sq st id h :
  NoDup (_id <$> heroes st) → h ∈ heroes st →
  castObjectId id = Some (_id h) →
  get_hero sq st None id = Responded 200 (JHero h).
Proof.
  intros Hnd Hh Hid. unfold get_hero.
  rewrite (findById_lookup _ _ _ (_id h)) by done.
  by rewrite head_filter_id.
Qed.

Lemma get_hero_finds_witness :
  NoDup (_id <$> heroes sample_store) ∧ batman ∈ heroes sample_store ∧
  castObjectId "5F0000000000000000000001" = Some (_id batman) ∧
  get_hero strict sample_store None "5F0000000000000000000001" =
    Responded 200 (JHero batman).
Proof.
  assert (NoDup (_id <$> heroes sample_store)) as Hnd by compute_done.
  assert (batman ∈ heroes sample_store) as Hin by compute_done.
  split_and!; [exact Hnd|exact Hin|reflexivity|].
  by apply (get_hero_finds strict sample_store "5F0000000000000000000001" batman Hnd Hin).
Defined.

(** ** Further properties of GET /heroes/:id/comments *)

(** For an existing hero and a page p ≥ 1, the listing is a window of
    offset (p-1)×3 and limit 3 over that hero's comments, arranged as the
    store comes upon them since their sort keys are all equal: at most
    three comments, each of them a comment of the store that references
    the hero. *)
Theorem get_comments_window sq st id oid p :
  castObjectId id = Some oid → oid ∈ _id <$> heroes st → 1 ≤ p →
  let mine := List.filter (λ c, bool_decide (hero c = oid)) (comments st) in
  let page := comments_of (get_comments sq st None None id (Some p)) in
  (∃ arranged,
     arranged ≡ₚ mine ∧
     get_comments sq st None None id (Some p) =
       Responded 200
         (JComments (take 3 (drop (Z.to_nat ((p - 1) * 3)) arranged)))) ∧
  (List.length page ≤ 3)%nat ∧
  (∀ c, c ∈ page → c ∈ comments st ∧ hero c = oid).
Proof.
  intros Hid Hsome Hp mine page. unfold page.
  rewrite (get_comments_page _ _ _ oid) by done. cbn [comments_of].
  split_and!.
  - eexists. split; [apply visit_Permutation|done].
  - apply window_length.
  - intros c [i [Hc _]]%elem_of_take. rewrite lookup_drop in Hc.
    apply list_elem_of_lookup_2 in Hc. rewrite visit_Permutation in Hc.
    apply list_elem_of_In, filter_In in Hc as [Hc Hoid].
    split; [by apply list_elem_of_In|by apply bool_decide_eq_true in Hoid].
Qed.

Lemma get_comments_window_witness :
  castObjectId id_flash = Some id_flash ∧
  (id_flash ∈ _id <$> heroes sample_store) ∧ 1 ≤ 1 ∧
  (List.length
     (comments_of (get_comments strict sample_store None None id_flash (Some 1%Z)))
   ≤ 3)%nat.
Proof.
  assert (id_flash ∈ _id <$> heroes sample_store) as Hin by compute_done.
  split_and!; [reflexivity|exact Hin|lia|].
  destruct (get_comments_window strict sample_store id_flash id_flash 1)
    as (_ & Hlen & _); [reflexivity|exact Hin|lia|exact Hlen].
Defined.

Lemma comment_pages_steady sq st id oid n :
  steady (tie_order sq) →
  castObjectId id = Some oid → oid ∈ _id <$> heroes st →
  let mine := List.filter (λ c, bool_decide (hero c = oid)) (comments st) in
  (List.length mine ≤ n * 3)%nat →
  all_comment_pages (get_comments sq st None None id) n ≡ₚ mine.
Proof.
  intros Hsteady Hid Hsome mine Hn. unfold all_comment_pages.
  pose (arr := visit (tie_order sq) Comment (comments_query oid 1) mine).
  assert (arr ≡ₚ mine) as Harr by apply visit_Permutation.
  transitivity arr; [|exact Harr].
  rewrite <- (windows_cover arr 3 n) by by rewrite Harr.
  apply reflexive_eq. f_equal. apply list_fmap_ext.
  intros i k [-> Hi]%lookup_seq.
  rewrite (get_comments_page _ _ _ oid) by (done || lia).
  cbn [comments_of]. rewrite (Hsteady _ _ (comments_query oid 1)) by done.
  do 2 f_equal. lia.
Qed.

(** If the store orders equal keys alike on every page, the pages of an
    existing hero's listing read one after the other hold exactly that
    hero's comments, each of them once. *)
Theorem get_comments_all_pages sq st id oid n :
  steady (tie_order sq) →
  castObjectId id = Some oid → oid ∈ _id <$> heroes st →
  let mine := List.filter (λ c, bool_decide (hero c = oid)) (comments st) in
  (List.length mine ≤ n * 3)%nat →
  all_comment_pages (get_comments sq st None None id) n ≡ₚ mine.
Proof. apply comment_pages_steady. Qed.

Lemma natural_steady : steady natural_order.
Proof. by intros D q q' l _ _. Qed.

Lemma get_comments_all_pages_witness :
  steady (tie_order lax) ∧
  castObjectId id_flash = Some id_flash ∧
  (id_flash ∈ _id <$> heroes sample_store) ∧
  all_comment_pages (get_comments lax sample_store None None id_flash) 1
    ≡ₚ [comment1; comment2].
Proof.
  assert (id_flash ∈ _id <$> heroes sample_store) as Hin by compute_done.
  split_and!; [exact natural_steady|reflexivity|exact Hin|].
  apply (get_comments_all_pages lax sample_store id_flash id_flash 1);
    [exact natural_steady|reflexivity|exact Hin|simpl; lia].
Defined.

(** For an identifier that names no hero the listing never answers: the
    handler raises, in the error branch of the lookup or on reading [_id]
    of null. *)
Theorem get_comments_no_such_hero sq st fault fault' id page :
  no_such_hero st id →
  get_comments sq st fault fault' id page = Threw (ReferenceError "handleError") ∨
  get_comments sq st fault fault' id page =
    Threw (TypeError "Cannot read properties of null (reading '_id')").
Proof.
  intros Hnone. unfold get_comments.
  destruct (castObjectId id) as [oid|] eqn:Hid.
  - destruct fault as [err|].
    + left. by rewrite (findById_fault _ _ _ _ oid).
    + right. by rewrite (findById_absent _ _ _ oid) by auto.
  - left. by rewrite findById_malformed.
Qed.

Lemma get_comments_no_such_hero_witness :
  no_such_hero sample_store id_absent ∧
  get_comments strict sample_store None None id_absent None =
    Threw (TypeError "Cannot read properties of null (reading '_id')").
Proof.
  assert (no_such_hero sample_store id_absent) as Hnone.
  { intros oid [= <-]. compute_done. }
  split; [exact Hnone|].
  by destruct (get_comments_no_such_hero strict sample_store None None
                 id_absent None Hnone) as [H|H].
Defined.

(** ** Further properties of POST /heroes/:id/comments *)

Lemma post_comment_appends sq st now fresh id oid t :
  castObjectId id = Some oid → oid ∈ _id <$> heroes st →
  fresh ∉ comment_id <$> comments st →
  post_comment sq st None None now fresh id (Some t) =
    (Responded 200
       (JComment {| comment_id := fresh; hero := oid; text := t;
                    comment_createdAt := now; comment_updatedAt := now |}),
     {| heroes := heroes st;
        comments := comments st ++
                    [{| comment_id := fresh; hero := oid; text := t;
                        comment_createdAt := now; comment_updatedAt := now |}] |}).
Proof.
  intros Hid Hsome Hfresh. unfold post_comment.
  destruct (findById_present sq _ _ _ Hid Hsome) as (h & -> & <- & _).
  cbn [hero_id]. unfold save. by rewrite bool_decide_false.
Qed.

(** For an existing hero, a text, an unused identifier and a store that
    answers, the handler responds with the new comment, which references
    the hero found and carries the text of the body, and the store gains
    that comment at the end of the collection and nothing else. *)
Theorem post_comment_success sq st now fresh id oid t :
  castObjectId id = Some oid → oid ∈ _id <$> heroes st →
  fresh ∉ comment_id <$> comments st →
  let c := {| comment_id := fresh; hero := oid; text := t;
              comment_createdAt := now; comment_updatedAt := now |} in
  post_comment sq st None None now fresh id (Some t) =
    (Responded 200 (JComment c),
     {| heroes := heroes st; comments := comments st ++ [c] |}).
Proof. intros Hid Hsome Hfresh c. by apply post_comment_appends. Qed.

Lemma post_comment_success_witness :
  castObjectId id_flash = Some id_flash ∧
  id_flash ∈ _id <$> heroes sample_store ∧
  (id_new_comment ∉ comment_id <$> comments sample_store) ∧
  comments (snd (post_comment strict sample_store None None 5 id_new_comment
                   id_flash (Some "third"))) =
    [comment1; comment2;
     {| comment_id := id_new_comment; hero := id_flash; text := "third";
        comment_createdAt := 5; comment_updatedAt := 5 |}].
Proof.
  assert (id_flash ∈ _id <$> heroes sample_store) as Hin by compute_done.
  assert (id_new_comment ∉ comment_id <$> comments sample_store) as Hfresh
    by compute_done.
  split_and!; [reflexivity|exact Hin|exact Hfresh|].
  by rewrite (post_comment_success strict sample_store 5 id_new_comment
                id_flash id_flash "third" eq_refl Hin Hfresh).
Defined.

(** If the store orders equal keys alike on every page, then after a
    successful creation the hero's listing, read over all its pages, holds
    the hero's earlier comments and the new one, each of them once. *)
Theorem post_comment_then_list sq st now fresh id oid t n :
  steady (tie_order sq) →
  castObjectId id = Some oid → oid ∈ _id <$> heroes st →
  fresh ∉ comment_id <$> comments st →
  let c := {| comment_id := fresh; hero := oid; text := t;
              comment_createdAt := now; comment_updatedAt := now |} in
  let st' := snd (post_comment sq st None None now fresh id (Some t)) in
  let mine := List.filter (λ c, bool_decide (hero c = oid)) (comments st) in
  (List.length mine + 1 ≤ n * 3)%nat →
  all_comment_pages (get_comments sq st' None None id) n ≡ₚ mine ++ [c].
Proof.
  intros Hsteady Hid Hsome Hfresh c st' mine Hn. unfold st'.
  rewrite (post_comment_appends _ _ _ _ _ oid) by done. cbn [snd].
  assert (List.filter (λ c, bool_decide (hero c = oid)) (comments st ++ [c])
          = mine ++ [c]) as Hmine.
  { rewrite List.filter_app. cbn [List.filter hero]. by rewrite bool_decide_true. }
  rewrite <- Hmine.
  apply (comment_pages_steady sq
           {| heroes := heroes st; comments := comments st ++ [c] |} id oid n);
    [done..|].
  cbn [comments]. rewrite Hmine, length_app. simpl. lia.
Qed.

Lemma post_comment_then_list_witness :
  steady (tie_order strict) ∧
  castObjectId id_flash = Some id_flash ∧
  (id_flash ∈ _id <$> heroes sample_store) ∧
  (id_new_comment ∉ comment_id <$> comments sample_store) ∧
  text <$> all_comment_pages
    (get_comments strict
       (snd (post_comment strict sample_store None None 5 id_new_comment
               id_flash (Some "third")))
       None None id_flash) 1 ≡ₚ ["first"; "second"; "third"].
Proof.
  assert (id_flash ∈ _id <$> heroes sample_store) as Hin by compute_done.
  assert (id_new_comment ∉ comment_id <$> comments sample_store) as Hfresh
    by compute_done.
  split_and!; [exact natural_steady|reflexivity|exact Hin|exact Hfresh|].
  rewrite (post_comment_then_list strict sample_store 5 id_new_comment
             id_flash id_flash "third" 1 natural_steady eq_refl Hin Hfresh)
    by (simpl; lia).
  done.
Defined.

(** ** The router as a whole *)

Lemma route_store_change env st r :
  heroes (snd (route env st r)) = heroes st ∧
  (snd (route env st r) = st ∨
   ∃ c, fst (route env st r) = Responded 200 (JComment c) ∧
        comments (snd (route env st r)) = comments st ++ [c] ∧
        hero c ∈ _id <$> heroes st).
Proof.
  destruct r as [pg|id|q pg|body pg|id txt|id pg]; cbn [route fst snd];
    try (split; [done|by left]).
  unfold post_comment.
  destruct (findById _ _ _ _) as [?|[h|]] eqn:Hfind;
    cbn [hero_id]; try (split; [done|by left]).
  unfold save. destruct txt as [t|]; [|split; [done|by left]].
  destruct (fault2 env); [split; [done|by left]|].
  case_bool_decide; [split; [done|by left]|].
  split; [done|right]. eexists. split_and!; [done|done|]. cbn [hero].
  unfold findById in Hfind.
  destruct (castObjectId id) as [oid|]; [|done].
  destruct (fault1 env); [done|].
  destruct (run _ _ _) as [?|l] eqn:Hrun; [done|].
  injection Hfind as Hhead. unfold run in Hrun. simpl in Hrun.
  injection Hrun as <-. rewrite sort_by_all_le in Hhead by done.
  destruct (List.filter _ _) as [|h' l'] eqn:Hfilter; [done|].
  injection Hhead as ->.
  assert (In h (List.filter
                  (λ d, forallb (matches d)
                          (cast_conditions (strictQuery (backend env)) hero_paths
                             [CondEq "_id" (VId oid)])) (heroes st))) as Hin
    by (rewrite Hfilter; left; done).
  apply filter_In in Hin as [Hin _].
  apply list_elem_of_fmap_2. by apply list_elem_of_In.
Qed.

(** No request modifies the heroes, and a request leaves the store as it
    was unless it is answered with a created comment; then the store has
    gained exactly that comment, at the end of the collection, and the
    comment references a hero of the store. *)
Theorem route_append_only env st r :
  heroes (snd (route env st r)) = heroes st ∧
  (snd (route env st r) = st ∨
   ∃ c, fst (route env st r) = Responded 200 (JComment c) ∧
        comments (snd (route env st r)) = comments st ++ [c] ∧
        hero c ∈ _id <$> heroes st).
Proof. apply route_store_change. Qed.

(** Referential integrity is an invariant of the router: if every comment
    references a hero of the store before a request, so it does after. *)
Theorem route_preserves_refs env st r :
  refs_ok st → refs_ok (snd (route env st r)).
Proof.
  intros Hok.
  destruct (route_store_change env st r) as [Hheroes [->|(c & _ & Hcs & Hc)]];
    [done|].
  intros c'. rewrite Hheroes, Hcs, elem_of_app, list_elem_of_singleton.
  intros [?| ->]; [by apply Hok|done].
Qed.

Lemma route_preserves_refs_witness :
  refs_ok sample_store ∧
  refs_ok (snd (route store_up sample_store
                  (PostComment id_flash (Some "third")))).
Proof.
  assert (refs_ok sample_store) as Hok.
  { intros c Hc. apply (Forall_forall (λ c, hero c ∈ _id <$> heroes sample_store)
                          (comments sample_store)); [|done].
    repeat constructor; compute_done. }
  split; [exact Hok|].
  apply (route_preserves_refs store_up sample_store
           (PostComment id_flash (Some "third")) Hok).
Defined.

(** Every response the router sends has status 200; a handler that does
    not answer has raised. *)
Theorem route_status env st r :
  (∃ body, fst (route env st r) = Responded 200 body) ∨
  (∃ e, fst (route env st r) = Threw e).
Proof.
  assert (∀ A (k : A → outcome) args,
            (∀ x, ∃ body, k x = Responded 200 body) →
            (∃ body, callback k args = Responded 200 body) ∨
            (∃ e, callback k args = Threw e)) as Hcb.
  { intros A k [e|[err|x]] Hk; cbn [callback]; [right|right|left]; eauto. }
  destruct r; cbn [route fst].
  - apply Hcb. eauto.
  - apply Hcb. intros [h|]; eauto.
  - apply Hcb. eauto.
  - apply Hcb. eauto.
  - unfold post_comment. destruct (findById _ _ _ _) as [?|[h|]];
      cbn [hero_id fst]; [right; eauto| |right; eauto].
    destruct (save _ _ _ _ _ _) as [?|[??]]; cbn [fst]; [right|left]; eauto.
  - unfold get_comments.
    destruct (findById _ _ _ _) as [?|[h|]];
      cbn [callback hero_id]; [right; eauto| |right; eauto].
    apply Hcb. eauto.
Qed.

(** ** The reach of [strictQuery] *)

Lemma cast_conditions_declared b paths conds :
  forallb (λ c, string_mem (cond_path c) paths) conds = true →
  cast_conditions b paths conds = conds.
Proof.
  intros Hall. destruct b; [|done]. simpl.
  induction conds as [|c conds IH]; [done|].
  simpl in Hall |- *. apply andb_true_iff in Hall as [-> Hall].
  by rewrite IH.
Qed.

Lemma run_declared `{Document D} b b' t (docs : list D) q :
  declared schema_paths q = true →
  run {| strictQuery := b; tie_order := t |} docs q =
  run {| strictQuery := b'; tie_order := t |} docs q.
Proof.
  intros Hq. unfold run. cbn [strictQuery tie_order].
  by rewrite !cast_conditions_declared.
Qed.

Lemma exec_declared `{Document D} b b' t fault (docs : list D) q :
  (∀ q', q = inr q' → declared schema_paths q' = true) →
  exec {| strictQuery := b; tie_order := t |} fault docs q =
  exec {| strictQuery := b'; tie_order := t |} fault docs q.
Proof.
  intros Hq. destruct q as [e|q]; [done|]. unfold exec.
  destruct fault; [done|]. by rewrite (run_declared b b') by auto.
Qed.

Lemma findById_strictQuery b b' t fault docs id :
  findById {| strictQuery := b; tie_order := t |} fault docs id =
  findById {| strictQuery := b'; tie_order := t |} fault docs id.
Proof.
  unfold findById. destruct (castObjectId id); [|done].
  destruct fault; [done|]. by rewrite (run_declared b b').
Qed.

(** The listing, the lookup, the name search and both comment routes ask
    only about paths their schemas declare, so the mapper's [strictQuery]
    option changes nothing on them; the stat search is the one route it
    bears on. *)
Theorem strictQuery_reach b b' t st fault fault' :
  let sq := {| strictQuery := b; tie_order := t |} in
  let sq' := {| strictQuery := b'; tie_order := t |} in
  (∀ page, get_heroes sq st fault page = get_heroes sq' st fault page) ∧
  (∀ id, get_hero sq st fault id = get_hero sq' st fault id) ∧
  (∀ q page,
     search_heroes_by_name sq st fault q page =
     search_heroes_by_name sq' st fault q page) ∧
  (∀ now fresh id text,
     post_comment sq st fault fault' now fresh id text =
     post_comment sq' st fault fault' now fresh id text) ∧
  (∀ id page,
     get_comments sq st fault fault' id page =
     get_comments sq' st fault fault' id page).
Proof.
  cbv zeta.
  assert (∀ q page,
            search_heroes_by_name {| strictQuery := b; tie_order := t |}
              st fault q page =
            search_heroes_by_name {| strictQuery := b'; tie_order := t |}
              st fault q page) as Hname.
  { intros q page. unfold search_heroes_by_name, heroes_by_name. f_equal.
    apply exec_declared. unfold sort_object.
    destruct (sort_value q); [|done]. by intros q' [= <-]. }
  split_and!; [intros; apply (Hname (Some "asc"))| |done| |].
  - intros id. unfold get_hero. by rewrite (findById_strictQuery b b').
  - intros now fresh id text. unfold post_comment.
    by rewrite (findById_strictQuery b b').
  - intros id page. unfold get_comments.
    rewrite (findById_strictQuery b b').
    destruct (findById _ _ _ _) as [err|found]; [done|]. cbn [callback].
    destruct (hero_id found) as [e|ref]; [done|].
    unfold comments_page. f_equal. apply exec_declared.
    simpl. by intros q' [= <-].
Qed.
